(** * Synopsys HSDK SDP generic PLL clock driver (drivers/clk/hsdk-clk.c)

    A shallow embedding of the driver: the rate tables, the control-register
    codec, the nearest-rate matcher, the two [update_rate] sequencers and the
    probe, followed by the properties the driver's specification states about
    them.

    Machine integers are [Z] with the wrap-around written out.  Memory-mapped
    I/O is a small monad that records every access in a trace and asks a
    device oracle what a read returns. *)

From Stdlib Require Import ZArith List Bool Lia.
Import ListNotations.
Open Scope Z_scope.

(** ** Machine integers *)

(** [u32] and [u64] values are kept reduced modulo their width. *)
Definition u32 (x : Z) : Z := x mod 2 ^ 32.
Definition u64 (x : Z) : Z := x mod 2 ^ 64.

(** The width of [long] is not fixed by the driver source: U-Boot is built
    either with 32-bit longs (the ARC HS cores of the HSDK board) or with
    64-bit longs. *)
Inductive data_model : Type := ILP32 | LP64.

Definition BITS_PER_LONG (dm : data_model) : Z :=
  match dm with ILP32 => 32 | LP64 => 64 end.

(** Conversion to [unsigned long]. *)
Definition ulong (dm : data_model) (x : Z) : Z := x mod 2 ^ BITS_PER_LONG dm.

(** Conversion to (signed) [long]: two's complement. *)
Definition long (dm : data_model) (x : Z) : Z :=
  let m := ulong dm x in
  if m <? 2 ^ (BITS_PER_LONG dm - 1) then m else m - 2 ^ BITS_PER_LONG dm.

(** Modelled from the spec: the [abs] macro of include/common.h, which is not
    part of the driver file.  The spec calls its result the absolute
    difference; the macro takes the absolute value of its argument converted
    to [long] (the argument here is an [unsigned long], so the long-sized
    branch of the macro is the one taken) and returns a [long].  Negating
    the most negative long wraps. *)
Definition abs (dm : data_model) (x : Z) : Z :=
  let __x := long dm x in
  if __x <? 0 then long dm (- __x) else __x.

(** [do_div(n, base)] of div64.h divides the 64-bit [n] in place by the
    32-bit [base]; the value left in [n] is the quotient.  A zero [base]
    has no result. *)
Definition do_div (n base : Z) : option Z :=
  if base =? 0 then None else Some (n / base).

Definition BIT (n : Z) : Z := Z.shiftl 1 n.
Definition GENMASK (h l : Z) : Z := Z.shiftl (Z.ones (h - l + 1)) l.

(** ** Register layout and constants *)

Definition CGU_PLL_CTRL : Z := 0x000.
Definition CGU_PLL_STATUS : Z := 0x004.
Definition CGU_PLL_FMEAS : Z := 0x008.
Definition CGU_PLL_MON : Z := 0x00C.

Definition CGU_PLL_CTRL_ODIV_SHIFT : Z := 2.
Definition CGU_PLL_CTRL_IDIV_SHIFT : Z := 4.
Definition CGU_PLL_CTRL_FBDIV_SHIFT : Z := 9.
Definition CGU_PLL_CTRL_BAND_SHIFT : Z := 20.

Definition CGU_PLL_CTRL_ODIV_MASK : Z := GENMASK 3 CGU_PLL_CTRL_ODIV_SHIFT.
Definition CGU_PLL_CTRL_IDIV_MASK : Z := GENMASK 8 CGU_PLL_CTRL_IDIV_SHIFT.
Definition CGU_PLL_CTRL_FBDIV_MASK : Z := GENMASK 15 CGU_PLL_CTRL_FBDIV_SHIFT.

Definition CGU_PLL_CTRL_PD : Z := BIT 0.
Definition CGU_PLL_CTRL_BYPASS : Z := BIT 1.

Definition CGU_PLL_STATUS_LOCK : Z := BIT 0.
Definition CGU_PLL_STATUS_ERR : Z := BIT 1.

Definition HSDK_PLL_MAX_LOCK_TIME : Z := 100.

Definition CREG_CORE_IF_DIV : Z := 0x000.
Definition CORE_IF_CLK_THRESHOLD_HZ : Z := 500000000.
Definition CREG_CORE_IF_CLK_DIV_1 : Z := 0x0.
Definition CREG_CORE_IF_CLK_DIV_2 : Z := 0x1.

Definition PARENT_RATE : Z := 33333333.

(** errno values used by the driver. *)
Definition ENOENT : Z := 2.
Definition EINVAL : Z := 22.
Definition ETIMEDOUT : Z := 110.

(** ** Rate tables *)

(** The fields live in a module of their own so that a function with a
    parameter called [rate] can still name the field, as [Cfg.rate]. *)
Module Cfg.
Record hsdk_pll_cfg : Type := mk_cfg {
  rate : Z;
  idiv : Z;
  fbdiv : Z;
  odiv : Z;
  band : Z
}.
End Cfg.
Import Cfg.

(** A table is the C array up to, and without, its terminating all-zero
    entry: reading past the end of the list reads the terminator. *)
Definition asdt_pll_cfg : list hsdk_pll_cfg :=
  [ mk_cfg 100000000 0 11 3 0;
    mk_cfg 133000000 0 15 3 0;
    mk_cfg 200000000 1 47 3 0;
    mk_cfg 233000000 1 27 2 0;
    mk_cfg 300000000 1 35 2 0;
    mk_cfg 333000000 1 39 2 0;
    mk_cfg 400000000 1 47 2 0;
    mk_cfg 500000000 0 14 1 0;
    mk_cfg 600000000 0 17 1 0;
    mk_cfg 700000000 0 20 1 0;
    mk_cfg 800000000 0 23 1 0;
    mk_cfg 900000000 1 26 0 0;
    mk_cfg 1000000000 1 29 0 0;
    mk_cfg 1100000000 1 32 0 0;
    mk_cfg 1200000000 1 35 0 0;
    mk_cfg 1300000000 1 38 0 0;
    mk_cfg 1400000000 1 41 0 0;
    mk_cfg 1500000000 1 44 0 0;
    mk_cfg 1600000000 1 47 0 0 ].

Definition hdmi_pll_cfg : list hsdk_pll_cfg :=
  [ mk_cfg 297000000 0 21 2 0;
    mk_cfg 540000000 0 19 1 0;
    mk_cfg 594000000 0 21 1 0 ].

(** The entries a scan of the table visits: everything before the first
    zero rate. *)
Fixpoint entries (pll_cfg : list hsdk_pll_cfg) : list hsdk_pll_cfg :=
  match pll_cfg with
  | [] => []
  | c :: rest => if rate c =? 0 then [] else c :: entries rest
  end.

(** Function pointers stored in [hsdk_pll_devdata.update_rate]. *)
Inductive update_rate_fn : Type :=
| core_update_rate
| comm_update_rate.

Record hsdk_pll_devdata : Type := mk_devdata {
  pll_cfg : list hsdk_pll_cfg;
  update_rate : update_rate_fn
}.

Record hsdk_pll_clk : Type := mk_clk {
  regs : Z;
  spec_regs : Z;
  pll_devdata : hsdk_pll_devdata
}.

Definition core_pll_devdata : hsdk_pll_devdata :=
  mk_devdata asdt_pll_cfg core_update_rate.
Definition sdt_pll_devdata : hsdk_pll_devdata :=
  mk_devdata asdt_pll_cfg comm_update_rate.
Definition hdmi_pll_devdata : hsdk_pll_devdata :=
  mk_devdata hdmi_pll_cfg comm_update_rate.

(** ** Memory-mapped I/O *)

(** What the driver does to the outside world, in program order. *)
Inductive event : Type :=
| iowrite32 (val addr : Z)
| ioread32 (addr val : Z)
| udelay (usec : Z)
| pr_err (best_rate : Z).

(** The hardware: what a 32-bit read of an address returns, given all that
    happened before it. *)
Definition device : Type := list event -> Z -> Z.

(** A computation is run after a history and yields a result together with
    the events it emitted. *)
Definition io (A : Type) : Type := list event -> A * list event.

Definition ret {A} (a : A) : io A := fun _ => (a, []).

Definition bind {A B} (m : io A) (f : A -> io B) : io B :=
  fun h =>
    let (a, e1) := m h in
    let (b, e2) := f a (h ++ e1) in
    (b, e1 ++ e2).

Definition emit (e : event) : io unit := fun _ => (tt, [e]).

Notation "x <- m ;; k" := (bind m (fun x => k))
  (at level 61, m at next level, right associativity).
Notation "m ;;; k" := (bind m (fun _ => k))
  (at level 61, right associativity).

(** Values written to, and read from, an address, oldest first. *)
Fixpoint writes_at (addr : Z) (tr : list event) : list Z :=
  match tr with
  | [] => []
  | iowrite32 v a :: tr' =>
      if a =? addr then v :: writes_at addr tr' else writes_at addr tr'
  | _ :: tr' => writes_at addr tr'
  end.

Fixpoint reads_at (addr : Z) (tr : list event) : list Z :=
  match tr with
  | [] => []
  | ioread32 a v :: tr' =>
      if a =? addr then v :: reads_at addr tr' else reads_at addr tr'
  | _ :: tr' => reads_at addr tr'
  end.

(** The value most recently written to an address, if any. *)
Definition last_write (addr : Z) (tr : list event) : option Z :=
  last (map Some (writes_at addr tr)) None.

(** A register that reads back the value last written to it. *)
Definition latched (hw : device) (addr : Z) : Prop :=
  forall h v, last_write addr h = Some v -> u32 (hw h addr) = u32 v.

(** ** The driver *)

(** The control word built by [hsdk_pll_set_cfg] (its local [val]):
    powerdown and bypass bits stay clear. *)
Definition hsdk_pll_cfg_val (cfg : hsdk_pll_cfg) : Z :=
  let val := 0 in
  let val := Z.lor val (u32 (Z.shiftl (idiv cfg) CGU_PLL_CTRL_IDIV_SHIFT)) in
  let val := Z.lor val (u32 (Z.shiftl (fbdiv cfg) CGU_PLL_CTRL_FBDIV_SHIFT)) in
  let val := Z.lor val (u32 (Z.shiftl (odiv cfg) CGU_PLL_CTRL_ODIV_SHIFT)) in
  let val := Z.lor val (u32 (Z.shiftl (band cfg) CGU_PLL_CTRL_BAND_SHIFT)) in
  val.

(** The three dividers [hsdk_pll_get_rate] extracts from the control word
    (its locals [idiv], [fbdiv] and [odiv]). *)
Definition ctrl_idiv (val : Z) : Z :=
  u32 (1 + Z.shiftr (Z.land val CGU_PLL_CTRL_IDIV_MASK) CGU_PLL_CTRL_IDIV_SHIFT).
Definition ctrl_fbdiv (val : Z) : Z :=
  u32 (2 * (1 + Z.shiftr (Z.land val CGU_PLL_CTRL_FBDIV_MASK)
                         CGU_PLL_CTRL_FBDIV_SHIFT)).
Definition ctrl_odiv (val : Z) : Z :=
  u32 (Z.shiftl 1 (Z.shiftr (Z.land val CGU_PLL_CTRL_ODIV_MASK)
                            CGU_PLL_CTRL_ODIV_SHIFT)).

Section Driver.

Variable dm : data_model.
Variable hw : device.

Definition hsdk_pll_write (clk : hsdk_pll_clk) (reg val : Z) : io unit :=
  emit (iowrite32 val (regs clk + reg)).

Definition hsdk_pll_read (clk : hsdk_pll_clk) (reg : Z) : io Z :=
  fun h => let v := u32 (hw h (regs clk + reg)) in
           (v, [ioread32 (regs clk + reg) v]).

Definition hsdk_pll_spcwrite (clk : hsdk_pll_clk) (reg val : Z) : io unit :=
  emit (iowrite32 val (spec_regs clk + reg)).

Definition hsdk_pll_spcread (clk : hsdk_pll_clk) (reg : Z) : io Z :=
  fun h => let v := u32 (hw h (spec_regs clk + reg)) in
           (v, [ioread32 (spec_regs clk + reg) v]).

Definition hsdk_pll_set_cfg (clk : hsdk_pll_clk) (cfg : hsdk_pll_cfg)
  : io unit :=
  hsdk_pll_write clk CGU_PLL_CTRL (hsdk_pll_cfg_val cfg).

Definition hsdk_pll_is_locked (clk : hsdk_pll_clk) : io bool :=
  v <- hsdk_pll_read clk CGU_PLL_STATUS ;;
  ret (negb (Z.land v CGU_PLL_STATUS_LOCK =? 0)).

Definition hsdk_pll_is_err (clk : hsdk_pll_clk) : io bool :=
  v <- hsdk_pll_read clk CGU_PLL_STATUS ;;
  ret (negb (Z.land v CGU_PLL_STATUS_ERR =? 0)).

(** The rate [hsdk_pll_get_rate] computes from the control word it read.
    [None] would be a division by zero. *)
Definition hsdk_pll_ctrl_rate (val : Z) : option Z :=
  if negb (Z.land val CGU_PLL_CTRL_PD =? 0) then Some 0
  else if negb (Z.land val CGU_PLL_CTRL_BYPASS =? 0)
  then Some (ulong dm PARENT_RATE)
  else
    let idiv := ctrl_idiv val in
    let fbdiv := ctrl_fbdiv val in
    let odiv := ctrl_odiv val in
    let rate := u64 (PARENT_RATE * fbdiv) in
    match do_div rate (u32 (idiv * odiv)) with
    | Some rate => Some (ulong dm rate)
    | None => None
    end.

Definition hsdk_pll_get_rate (clk : hsdk_pll_clk) : io (option Z) :=
  val <- hsdk_pll_read clk CGU_PLL_CTRL ;;
  ret (hsdk_pll_ctrl_rate val).

(** [hsdk_pll_round_rate]: the scan from index 1, carrying [best_rate].
    The differences are computed in [unsigned long] and handed to [abs]. *)
Fixpoint round_rate_loop (rate : Z) (cfgs : list hsdk_pll_cfg)
                         (best_rate : Z) : Z :=
  match cfgs with
  | [] => best_rate
  | c :: rest =>
      if Cfg.rate c =? 0 then best_rate
      else
        round_rate_loop rate rest
          (if abs dm (ulong dm (rate - Cfg.rate c))
              <? abs dm (ulong dm (rate - best_rate))
           then Cfg.rate c else best_rate)
  end.

Definition hsdk_pll_round_rate (clk : hsdk_pll_clk) (rate : Z) : Z :=
  match pll_cfg (pll_devdata clk) with
  | [] => ulong dm (- EINVAL)
  | c0 :: rest =>
      if Cfg.rate c0 =? 0 then ulong dm (- EINVAL)
      else round_rate_loop rate rest (Cfg.rate c0)
  end.

Definition hsdk_pll_comm_update_rate (clk : hsdk_pll_clk) (rate : Z)
                                     (cfg : hsdk_pll_cfg) : io Z :=
  hsdk_pll_set_cfg clk cfg ;;;
  emit (udelay HSDK_PLL_MAX_LOCK_TIME) ;;;
  locked <- hsdk_pll_is_locked clk ;;
  if negb locked then ret (- ETIMEDOUT)
  else
    err <- hsdk_pll_is_err clk ;;
    if err then ret (- EINVAL)
    else ret 0.

Definition hsdk_pll_core_update_rate (clk : hsdk_pll_clk) (rate : Z)
                                     (cfg : hsdk_pll_cfg) : io Z :=
  (if rate >? CORE_IF_CLK_THRESHOLD_HZ
   then hsdk_pll_spcwrite clk CREG_CORE_IF_DIV CREG_CORE_IF_CLK_DIV_2
   else ret tt) ;;;
  hsdk_pll_set_cfg clk cfg ;;;
  emit (udelay HSDK_PLL_MAX_LOCK_TIME) ;;;
  locked <- hsdk_pll_is_locked clk ;;
  if negb locked then ret (- ETIMEDOUT)
  else
    err <- hsdk_pll_is_err clk ;;
    if err then ret (- EINVAL)
    else
      (if rate <=? CORE_IF_CLK_THRESHOLD_HZ
       then hsdk_pll_spcwrite clk CREG_CORE_IF_DIV CREG_CORE_IF_CLK_DIV_1
       else ret tt) ;;;
      ret 0.

(** The indirect call [clk->pll_devdata->update_rate(clk, rate, cfg)]. *)
Definition call_update_rate (clk : hsdk_pll_clk) (rate : Z)
                            (cfg : hsdk_pll_cfg) : io Z :=
  match update_rate (pll_devdata clk) with
  | core_update_rate => hsdk_pll_core_update_rate clk rate cfg
  | comm_update_rate => hsdk_pll_comm_update_rate clk rate cfg
  end.

(** [hsdk_pll_set_rate]: the equality lookup from index 0.  The [int]
    status of [update_rate] is returned through the [ulong] result. *)
Fixpoint set_rate_loop (clk : hsdk_pll_clk) (cfgs : list hsdk_pll_cfg)
                       (best_rate : Z) : io Z :=
  match cfgs with
  | [] =>
      emit (pr_err best_rate) ;;;
      ret (ulong dm (- EINVAL))
  | c :: rest =>
      if Cfg.rate c =? 0 then
        emit (pr_err best_rate) ;;;
        ret (ulong dm (- EINVAL))
      else if Cfg.rate c =? best_rate then
        r <- call_update_rate clk best_rate c ;;
        ret (ulong dm r)
      else set_rate_loop clk rest best_rate
  end.

Definition hsdk_pll_set_rate (clk : hsdk_pll_clk) (rate : Z) : io Z :=
  let best_rate := hsdk_pll_round_rate clk rate in
  set_rate_loop clk (pll_cfg (pll_devdata clk)) best_rate.

End Driver.

(** ** Probe *)

(** The match table [hsdk_pll_clk_id]. *)
Inductive compatible : Type :=
| snps_hsdk_gp_pll_clock
| snps_hsdk_hdmi_pll_clock
| snps_hsdk_core_pll_clock.

Definition hsdk_pll_clk_id (c : compatible) : hsdk_pll_devdata :=
  match c with
  | snps_hsdk_gp_pll_clock => sdt_pll_devdata
  | snps_hsdk_hdmi_pll_clock => hdmi_pll_devdata
  | snps_hsdk_core_pll_clock => core_pll_devdata
  end.

(** What the probe asks of the device: the entry of the match table it was
    bound with, and the register bases [devfdt_get_addr_index] reports by
    index. *)
Record udevice : Type := mk_udevice {
  of_match : compatible;
  devfdt_get_addr_index : Z -> Z
}.

Definition dev_get_driver_data (dev : udevice) : hsdk_pll_devdata :=
  hsdk_pll_clk_id (of_match dev).

Definition cfg_eqb (a b : hsdk_pll_cfg) : bool :=
  (Cfg.rate a =? Cfg.rate b) && (idiv a =? idiv b) && (fbdiv a =? fbdiv b)
  && (odiv a =? odiv b) && (band a =? band b).

Fixpoint table_eqb (a b : list hsdk_pll_cfg) : bool :=
  match a, b with
  | [], [] => true
  | x :: a', y :: b' => cfg_eqb x y && table_eqb a' b'
  | _, _ => false
  end.

Definition update_rate_fn_eqb (f g : update_rate_fn) : bool :=
  match f, g with
  | core_update_rate, core_update_rate => true
  | comm_update_rate, comm_update_rate => true
  | _, _ => false
  end.

(** The three descriptors are the only objects of their type and differ in
    content, so comparing contents decides the comparison of their
    addresses. *)
Definition devdata_eqb (a b : hsdk_pll_devdata) : bool :=
  table_eqb (pll_cfg a) (pll_cfg b)
  && update_rate_fn_eqb (update_rate a) (update_rate b).

(** [hsdk_pll_clk_probe] fills the private data in place and returns a
    status; both are returned here.  A null [spec_regs] is 0. *)
Definition hsdk_pll_clk_probe (dev : udevice) (pll_clk : hsdk_pll_clk)
  : Z * hsdk_pll_clk :=
  let pll_clk := mk_clk (regs pll_clk) (spec_regs pll_clk)
                        (dev_get_driver_data dev) in
  let pll_clk := mk_clk (devfdt_get_addr_index dev 0) (spec_regs pll_clk)
                        (pll_devdata pll_clk) in
  let pll_clk := mk_clk (regs pll_clk) (devfdt_get_addr_index dev 1)
                        (pll_devdata pll_clk) in
  if devdata_eqb (pll_devdata pll_clk) core_pll_devdata
     && (spec_regs pll_clk =? 0)
  then (- ENOENT, pll_clk)
  else (0, pll_clk).

(** * Vocabulary of the properties *)

(** Instances used to exercise the statements below: the register bases
    of the HSDK device tree. *)
Definition hsdk_core_clk : hsdk_pll_clk :=
  mk_clk 0xF0000000 0xF00014B8 core_pll_devdata.
Definition hsdk_sdt_clk : hsdk_pll_clk :=
  mk_clk 0xF00000A0 0 sdt_pll_devdata.
Definition hsdk_hdmi_clk : hsdk_pll_clk :=
  mk_clk 0xF00000D0 0 hdmi_pll_devdata.

(** A device whose every register reads as the same word. *)
Definition reads_as (val : Z) : device := fun _ _ => val.

(** What truncation to integers can contribute to a decoded rate: the
    division truncates once, and one unit of the reference frequency passes
    through a feedback multiplier of at most 2 * 128. *)
Definition ROUNDING_TOLERANCE_HZ : Z := 256.

(** Decoding the control word of [cfg] gives its rate to within [tol]. *)
Definition reproduces_rate (dm : data_model) (tol : Z) (cfg : hsdk_pll_cfg)
  : Prop :=
  exists r, hsdk_pll_ctrl_rate dm (hsdk_pll_cfg_val cfg) = Some r /\
            Z.abs (r - Cfg.rate cfg) <= tol.

(** The entries of the generic table named after a rounded number of MHz,
    each with the rate its dividers decode to. *)
Definition nominal_decodes : list (Z * Z) :=
  [(133000000, 133333332); (233000000, 233333331); (333000000, 333333330)].



(** [r] is the rate of the entry of [es] nearest to [rate], the earliest
    such entry when several are equally near: every earlier entry is
    strictly farther, no later entry is nearer. *)
Definition nearest_first (rate : Z) (es : list hsdk_pll_cfg) (r : Z) : Prop :=
  exists l1 c l2,
    es = l1 ++ c :: l2 /\ Cfg.rate c = r /\
    (forall c', In c' l1 -> Z.abs (rate - r) < Z.abs (rate - Cfg.rate c')) /\
    (forall c', In c' l2 -> Z.abs (rate - r) <= Z.abs (rate - Cfg.rate c')).

(** Rates whose differences fit a [long]. *)
Definition fits_long (dm : data_model) (x : Z) : Prop :=
  0 <= x < 2 ^ (BITS_PER_LONG dm - 1).

(** The three registers the driver touches. *)
Definition ctrl_addr (clk : hsdk_pll_clk) : Z := regs clk + CGU_PLL_CTRL.
Definition status_addr (clk : hsdk_pll_clk) : Z := regs clk + CGU_PLL_STATUS.
Definition core_if_div_addr (clk : hsdk_pll_clk) : Z :=
  spec_regs clk + CREG_CORE_IF_DIV.

(** A PLL whose status register always reads [status] and whose other
    registers read back what was last written to them (0 before any
    write). *)
Definition pll_device (clk : hsdk_pll_clk) (status : Z) : device :=
  fun h addr =>
    if addr =? status_addr clk then status
    else match last_write addr h with Some v => v | None => 0 end.

(** The events of one run of [update_rate], by stage. *)
Definition pre_step (clk : hsdk_pll_clk) (rate : Z) : list event :=
  match update_rate (pll_devdata clk) with
  | core_update_rate =>
      if rate >? CORE_IF_CLK_THRESHOLD_HZ
      then [iowrite32 CREG_CORE_IF_CLK_DIV_2 (core_if_div_addr clk)]
      else []
  | comm_update_rate => []
  end.

Definition program (clk : hsdk_pll_clk) (cfg : hsdk_pll_cfg) : list event :=
  [iowrite32 (hsdk_pll_cfg_val cfg) (ctrl_addr clk);
   udelay HSDK_PLL_MAX_LOCK_TIME].

Definition post_step (clk : hsdk_pll_clk) (rate : Z) : list event :=
  match update_rate (pll_devdata clk) with
  | core_update_rate =>
      if rate <=? CORE_IF_CLK_THRESHOLD_HZ
      then [iowrite32 CREG_CORE_IF_CLK_DIV_1 (core_if_div_addr clk)]
      else []
  | comm_update_rate => []
  end.

(** The three ways a run of [update_rate] ends: its status and its events,
    by what the status register showed. *)
Inductive update_outcome (clk : hsdk_pll_clk) (rate : Z) (cfg : hsdk_pll_cfg)
  : Z -> list event -> Prop :=
| lock_timeout (s1 : Z) :
    Z.land s1 CGU_PLL_STATUS_LOCK = 0 ->
    update_outcome clk rate cfg (- ETIMEDOUT)
      (pre_step clk rate ++ program clk cfg
       ++ [ioread32 (status_addr clk) s1])
| hardware_error (s1 s2 : Z) :
    Z.land s1 CGU_PLL_STATUS_LOCK <> 0 ->
    Z.land s2 CGU_PLL_STATUS_ERR <> 0 ->
    update_outcome clk rate cfg (- EINVAL)
      (pre_step clk rate ++ program clk cfg
       ++ [ioread32 (status_addr clk) s1; ioread32 (status_addr clk) s2])
| locked_ok (s1 s2 : Z) :
    Z.land s1 CGU_PLL_STATUS_LOCK <> 0 ->
    Z.land s2 CGU_PLL_STATUS_ERR = 0 ->
    update_outcome clk rate cfg 0
      (pre_step clk rate ++ program clk cfg
       ++ [ioread32 (status_addr clk) s1; ioread32 (status_addr clk) s2]
       ++ post_step clk rate).

(** Divider and band codes that fit their fields of the control word:
    5 bits of input divider, 7 of feedback divider, 2 of output divider and
    the 12 bits from bit 20 up. *)
Definition valid_fields (cfg : hsdk_pll_cfg) : Prop :=
  0 <= idiv cfg < 2 ^ 5 /\ 0 <= fbdiv cfg < 2 ^ 7 /\
  0 <= odiv cfg < 2 ^ 2 /\ 0 <= band cfg < 2 ^ 12.

(** The rate the dividers of an entry give from the reference frequency:
    feedback 2 * (fbdiv + 1), input idiv + 1, output 2 ^ odiv. *)
Definition dividers_rate (cfg : hsdk_pll_cfg) : Z :=
  PARENT_RATE * (2 * (fbdiv cfg + 1)) / ((idiv cfg + 1) * 2 ^ odiv cfg).

(** The quotient [hsdk_pll_get_rate] computes for a control word that is
    neither powered down nor bypassed, before it is converted to
    [unsigned long]. *)
Definition ctrl_quotient (val : Z) : Z :=
  PARENT_RATE * ctrl_fbdiv val / (ctrl_idiv val * ctrl_odiv val).

(** The waits of a trace, oldest first. *)
Fixpoint delays (tr : list event) : list Z :=
  match tr with
  | [] => []
  | udelay usec :: tr' => usec :: delays tr'
  | _ :: tr' => delays tr'
  end.

(** An access the driver is expected to make on behalf of [clk]: a write
    to its control register or to its interface divider, a read of its
    status register, or a wait. *)
Definition own_access (clk : hsdk_pll_clk) (e : event) : Prop :=
  match e with
  | iowrite32 _ addr => addr = ctrl_addr clk \/ addr = core_if_div_addr clk
  | ioread32 addr _ => addr = status_addr clk
  | udelay _ => True
  | pr_err _ => False
  end.

(** * Properties *)

(** ** Machine-integer facts *)

Lemma BITS_PER_LONG_cases (dm : data_model) :
  BITS_PER_LONG dm = 32 \/ BITS_PER_LONG dm = 64.
Proof. destruct dm; [left | right]; reflexivity. Qed.

Lemma ulong_range (dm : data_model) (x : Z) :
  0 <= ulong dm x < 2 ^ BITS_PER_LONG dm.
Proof. unfold ulong. apply Z.mod_pos_bound. destruct dm; reflexivity. Qed.

Lemma ulong_small (dm : data_model) (x : Z) :
  0 <= x < 2 ^ 32 -> ulong dm x = x.
Proof.
  intros Hx. unfold ulong. apply Z.mod_small.
  destruct dm; cbn [BITS_PER_LONG]; lia.
Qed.

(** Testing a single bit with a mask, as the driver does, reads that bit. *)
Lemma land_BIT (a n : Z) :
  0 <= n -> (Z.land a (BIT n) =? 0) = negb (Z.testbit a n).
Proof.
  intros Hn. unfold BIT. rewrite Z.shiftl_1_l.
  destruct (Z.testbit a n) eqn:Hb; cbn [negb].
  - apply Z.eqb_neq. intros H0.
    assert (Hc : Z.testbit (Z.land a (2 ^ n)) n = true).
    { rewrite Z.land_spec, Hb, Z.pow2_bits_true by assumption. reflexivity. }
    rewrite H0, Z.bits_0 in Hc. discriminate.
  - apply Z.eqb_eq. apply Z.bits_inj'. intros m Hm.
    rewrite Z.land_spec, Z.bits_0, Z.pow2_bits_eqb by assumption.
    destruct (Z.eqb_spec n m) as [->|_].
    + rewrite Hb. reflexivity.
    + apply andb_false_r.
Qed.

(** A masked and shifted field is the corresponding slice of the word. *)
Lemma field_slice (val h l : Z) :
  0 <= l <= h ->
  Z.shiftr (Z.land val (GENMASK h l)) l = Z.shiftr val l mod 2 ^ (h - l + 1).
Proof.
  intros Hl. unfold GENMASK.
  rewrite Z.shiftr_land, Z.shiftr_shiftl_l, Z.sub_diag, Z.shiftl_0_r by lia.
  apply Z.land_ones. lia.
Qed.

Lemma ctrl_idiv_range (val : Z) : 1 <= ctrl_idiv val <= 32.
Proof.
  unfold ctrl_idiv, CGU_PLL_CTRL_IDIV_MASK.
  rewrite field_slice by (unfold CGU_PLL_CTRL_IDIV_SHIFT; lia).
  unfold CGU_PLL_CTRL_IDIV_SHIFT.
  pose proof (Z.mod_pos_bound (Z.shiftr val 4) (2 ^ (8 - 4 + 1)) eq_refl) as Hm.
  change (2 ^ (8 - 4 + 1)) with 32 in *.
  unfold u32. rewrite Z.mod_small; lia.
Qed.

Lemma ctrl_fbdiv_range (val : Z) : 2 <= ctrl_fbdiv val <= 256.
Proof.
  unfold ctrl_fbdiv, CGU_PLL_CTRL_FBDIV_MASK.
  rewrite field_slice by (unfold CGU_PLL_CTRL_FBDIV_SHIFT; lia).
  unfold CGU_PLL_CTRL_FBDIV_SHIFT.
  pose proof (Z.mod_pos_bound (Z.shiftr val 9) (2 ^ (15 - 9 + 1)) eq_refl) as Hm.
  change (2 ^ (15 - 9 + 1)) with 128 in *.
  unfold u32. rewrite Z.mod_small; lia.
Qed.

Lemma ctrl_odiv_range (val : Z) : 1 <= ctrl_odiv val <= 8.
Proof.
  unfold ctrl_odiv, CGU_PLL_CTRL_ODIV_MASK.
  rewrite field_slice by (unfold CGU_PLL_CTRL_ODIV_SHIFT; lia).
  unfold CGU_PLL_CTRL_ODIV_SHIFT.
  pose proof (Z.mod_pos_bound (Z.shiftr val 2) (2 ^ (3 - 2 + 1)) eq_refl) as Hm.
  change (2 ^ (3 - 2 + 1)) with 4 in *.
  rewrite Z.shiftl_1_l.
  assert (Hc : Z.shiftr val 2 mod 4 = 0 \/ Z.shiftr val 2 mod 4 = 1 \/
               Z.shiftr val 2 mod 4 = 2 \/ Z.shiftr val 2 mod 4 = 3) by lia.
  destruct Hc as [-> | [-> | [-> | ->]]]; vm_compute; split; discriminate.
Qed.

(** The divisor handed to [do_div] is the plain product: the 32-bit
    multiplication does not wrap, and it is never zero. *)
Lemma ctrl_divisor_range (val : Z) :
  u32 (ctrl_idiv val * ctrl_odiv val) = ctrl_idiv val * ctrl_odiv val /\
  1 <= ctrl_idiv val * ctrl_odiv val <= 256.
Proof.
  pose proof (ctrl_idiv_range val). pose proof (ctrl_odiv_range val).
  assert (1 <= ctrl_idiv val * ctrl_odiv val <= 256) by nia.
  split; [| assumption].
  unfold u32. apply Z.mod_small. lia.
Qed.

(** ** Rate query *)

Lemma ctrl_rate_some (dm : data_model) (val : Z) :
  exists r, hsdk_pll_ctrl_rate dm val = Some r /\ 0 <= r < 2 ^ BITS_PER_LONG dm.
Proof.
  unfold hsdk_pll_ctrl_rate.
  destruct (negb (Z.land val CGU_PLL_CTRL_PD =? 0)).
  - exists 0. split; [reflexivity |]. destruct dm; cbn; lia.
  - destruct (negb (Z.land val CGU_PLL_CTRL_BYPASS =? 0)).
    + eexists. split; [reflexivity | apply ulong_range].
    + destruct (ctrl_divisor_range val) as [Hu Hd].
      unfold do_div. rewrite Hu.
      destruct (Z.eqb_spec (ctrl_idiv val * ctrl_odiv val) 0) as [E|_]; [lia |].
      eexists. split; [reflexivity | apply ulong_range].
Qed.

(** C9: [hsdk_pll_get_rate] is total.  Whatever word the control register
    holds, the input divider (field + 1) and the output divider (2 ^ field)
    are at least 1, so is the divisor handed to [do_div], and the call
    returns a rate that fits an [unsigned long]; no register value leads to
    a division by zero. *)
Theorem get_rate_total (dm : data_model) (hw : device) (clk : hsdk_pll_clk)
                       (h : list event) (val : Z) :
  (1 <= ctrl_idiv val /\ 1 <= ctrl_odiv val /\
   1 <= u32 (ctrl_idiv val * ctrl_odiv val)) /\
  (exists r, hsdk_pll_ctrl_rate dm val = Some r /\
             0 <= r < 2 ^ BITS_PER_LONG dm) /\
  (exists r, fst (hsdk_pll_get_rate dm hw clk h) = Some r /\
             0 <= r < 2 ^ BITS_PER_LONG dm).
Proof.
  split; [| split].
  - pose proof (ctrl_idiv_range val). pose proof (ctrl_odiv_range val).
    destruct (ctrl_divisor_range val) as [-> ?]. lia.
  - apply ctrl_rate_some.
  - unfold hsdk_pll_get_rate, hsdk_pll_read, bind, ret. cbn [fst].
    apply ctrl_rate_some.
Qed.

(** The word [hsdk_pll_get_rate] decodes is the one the device returns for
    the control register. *)
Lemma get_rate_reads_ctrl (dm : data_model) (hw : device)
                          (clk : hsdk_pll_clk) (h : list event) :
  hsdk_pll_get_rate dm hw clk h =
  (hsdk_pll_ctrl_rate dm (u32 (hw h (regs clk + CGU_PLL_CTRL))),
   [ioread32 (regs clk + CGU_PLL_CTRL) (u32 (hw h (regs clk + CGU_PLL_CTRL)))]).
Proof. reflexivity. Qed.

(** C7: [hsdk_pll_get_rate] returns 0 whenever the powerdown bit (bit 0) is
    set, whatever the other bits are, and returns the reference frequency
    33,333,333 Hz whenever the bypass bit (bit 1) is set, whatever the
    divider and band fields are.  The two cases are tried in this order
    (powerdown, else bypass), so the second is about a PLL that is not
    powered down. *)
Theorem get_rate_powerdown_bypass (dm : data_model) (hw : device)
                                  (clk : hsdk_pll_clk) (h : list event) :
  let val := u32 (hw h (regs clk + CGU_PLL_CTRL)) in
  (Z.testbit val 0 = true ->
   fst (hsdk_pll_get_rate dm hw clk h) = Some 0) /\
  (Z.testbit val 0 = false -> Z.testbit val 1 = true ->
   fst (hsdk_pll_get_rate dm hw clk h) = Some PARENT_RATE).
Proof.
  intros val. rewrite get_rate_reads_ctrl. cbn [fst]. fold val.
  unfold hsdk_pll_ctrl_rate, CGU_PLL_CTRL_PD, CGU_PLL_CTRL_BYPASS.
  rewrite !land_BIT, !negb_involutive by lia.
  split.
  - intros ->. reflexivity.
  - intros -> ->. f_equal. apply ulong_small. unfold PARENT_RATE. lia.
Qed.

Lemma get_rate_powerdown_bypass_witness :
  fst (hsdk_pll_get_rate ILP32 (reads_as 0x3619) hsdk_core_clk []) = Some 0 /\
  fst (hsdk_pll_get_rate ILP32 (reads_as 0x361A) hsdk_core_clk [])
  = Some PARENT_RATE.
Proof.
  split.
  - apply (get_rate_powerdown_bypass ILP32 (reads_as 0x3619) hsdk_core_clk []).
    reflexivity.
  - apply (get_rate_powerdown_bypass ILP32 (reads_as 0x361A) hsdk_core_clk []);
      reflexivity.
Defined.

(** The order of the two tests shows when both bits are set: the word 3
    reads as 0 Hz. *)
Remark get_rate_powerdown_first :
  fst (hsdk_pll_get_rate ILP32 (reads_as 3) hsdk_core_clk []) = Some 0.
Proof. reflexivity. Qed.

(** ** Register codec round trip *)

(** C4, as the code has it: every entry of the generic (core and system)
    table decodes, with the reference frequency 33,333,333 Hz, to within
    16 Hz of its rate, except the entries named 133, 233 and 333 MHz, which
    decode to 133,333,332, 233,333,331 and 333,333,330 Hz, a third of a MHz
    more than their names (within 333,332 Hz). *)
Theorem asdt_decode_encode (dm : data_model) :
  Forall (fun cfg =>
            reproduces_rate dm 16 cfg \/
            (exists r,
               In (Cfg.rate cfg, r) nominal_decodes /\
               hsdk_pll_ctrl_rate dm (hsdk_pll_cfg_val cfg) = Some r /\
               ~ reproduces_rate dm 16 cfg /\
               reproduces_rate dm 333332 cfg))
         asdt_pll_cfg.
Proof.
  unfold asdt_pll_cfg, reproduces_rate.
  repeat (apply Forall_cons;
          [ first
              [ left; eexists; split;
                [ destruct dm; vm_compute; reflexivity
                | vm_compute; discriminate ]
              | right; eexists; split;
                [ first [ left; reflexivity
                        | right; left; reflexivity
                        | right; right; left; reflexivity ]
                | split;
                  [ destruct dm; vm_compute; reflexivity
                  | split;
                    [ intros [r [Hr Hd]]; destruct dm; vm_compute in Hr;
                      injection Hr as <-; vm_compute in Hd; apply Hd;
                      reflexivity
                    | eexists; split;
                      [ destruct dm; vm_compute; reflexivity
                      | vm_compute; discriminate ] ] ] ] ]
          | ]).
  apply Forall_nil.
Qed.

(** C4 as stated fails in both tables.  The 133 MHz entry of the generic
    table decodes to 133,333,332 Hz, and the 297 MHz entry of the HDMI table
    decodes to 366,666,663 Hz, which is not within 1 MHz of its rate, let
    alone within rounding. *)
Lemma decode_encode_not_within_rounding :
  In (mk_cfg 133000000 0 15 3 0) asdt_pll_cfg /\
  hsdk_pll_ctrl_rate ILP32 (hsdk_pll_cfg_val (mk_cfg 133000000 0 15 3 0))
  = Some 133333332 /\
  ~ reproduces_rate ILP32 ROUNDING_TOLERANCE_HZ (mk_cfg 133000000 0 15 3 0) /\
  In (mk_cfg 297000000 0 21 2 0) hdmi_pll_cfg /\
  hsdk_pll_ctrl_rate ILP32 (hsdk_pll_cfg_val (mk_cfg 297000000 0 21 2 0))
  = Some 366666663 /\
  ~ reproduces_rate ILP32 1000000 (mk_cfg 297000000 0 21 2 0).
Proof.
  repeat split.
  - cbn. tauto.
  - intros [r [Hr Hd]]. vm_compute in Hr. injection Hr as <-.
    vm_compute in Hd. apply Hd. reflexivity.
  - cbn. tauto.
  - intros [r [Hr Hd]]. vm_compute in Hr. injection Hr as <-.
    vm_compute in Hd. apply Hd. reflexivity.
Qed.

(** ** Probe *)




(** ** Nearest-rate matcher *)

Lemma long_of_signed (dm : data_model) (x : Z) :
  - 2 ^ (BITS_PER_LONG dm - 1) <= x < 2 ^ (BITS_PER_LONG dm - 1) ->
  long dm x = x.
Proof.
  intros Hx. unfold long, ulong.
  destruct dm; cbn [BITS_PER_LONG] in *;
    change (2 ^ (32 - 1)) with 2147483648 in *;
    change (2 ^ 32) with 4294967296 in *;
    change (2 ^ (64 - 1)) with 9223372036854775808 in *;
    change (2 ^ 64) with 18446744073709551616 in *.
  - destruct (Z.ltb_spec (x mod 4294967296) 2147483648);
      Z.to_euclidean_division_equations; lia.
  - destruct (Z.ltb_spec (x mod 18446744073709551616) 9223372036854775808);
      Z.to_euclidean_division_equations; lia.
Qed.

Lemma long_ulong (dm : data_model) (x : Z) : long dm (ulong dm x) = long dm x.
Proof.
  unfold long, ulong. rewrite Z.mod_mod; [reflexivity |].
  destruct dm; discriminate.
Qed.

(** While both rates fit a [long], [abs] of their [unsigned long]
    difference is the absolute difference. *)
Lemma abs_difference (dm : data_model) (a b : Z) :
  fits_long dm a -> fits_long dm b ->
  abs dm (ulong dm (a - b)) = Z.abs (a - b).
Proof.
  unfold fits_long. intros Ha Hb. unfold abs.
  rewrite long_ulong, (long_of_signed dm (a - b)) by lia.
  destruct (Z.ltb_spec (a - b) 0).
  - rewrite long_of_signed by lia. lia.
  - lia.
Qed.

(** The scan returns the rate it started with or the rate of an entry it
    visited. *)
Lemma round_rate_loop_in (dm : data_model) (rate : Z)
                         (cfgs : list hsdk_pll_cfg) (best_rate : Z) :
  round_rate_loop dm rate cfgs best_rate = best_rate \/
  exists c, In c (entries cfgs) /\
            Cfg.rate c = round_rate_loop dm rate cfgs best_rate.
Proof.
  revert best_rate. induction cfgs as [| c rest IH]; intros best_rate.
  - left. reflexivity.
  - cbn [round_rate_loop entries].
    destruct (Cfg.rate c =? 0); [left; reflexivity |].
    match goal with
    | |- context [round_rate_loop dm rate rest ?b] =>
        destruct (IH b) as [E | [c' [Hin E]]]
    end.
    + rewrite E.
      destruct (abs dm (ulong dm (rate - Cfg.rate c))
                <? abs dm (ulong dm (rate - best_rate))).
      * right. exists c. split; [left; reflexivity | reflexivity].
      * left. reflexivity.
    + right. exists c'. split; [right; assumption | assumption].
Qed.

(** On a non-empty table the matcher returns the rate of an entry. *)
Lemma round_rate_in_entries (dm : data_model) (clk : hsdk_pll_clk) (rate : Z) :
  entries (pll_cfg (pll_devdata clk)) <> [] ->
  exists c, In c (entries (pll_cfg (pll_devdata clk))) /\
            Cfg.rate c = hsdk_pll_round_rate dm clk rate.
Proof.
  unfold hsdk_pll_round_rate.
  destruct (pll_cfg (pll_devdata clk)) as [| c0 rest]; [intros H; contradiction |].
  cbn [entries]. destruct (Cfg.rate c0 =? 0); [intros H; contradiction |].
  intros _.
  destruct (round_rate_loop_in dm rate rest (Cfg.rate c0)) as [E | [c [Hin E]]].
  - exists c0. split; [left; reflexivity | symmetry; assumption].
  - exists c. split; [right; assumption | assumption].
Qed.

(** The scan keeps the earliest nearest entry, as long as no difference
    overflows. *)
Lemma round_rate_loop_nearest (dm : data_model) (rate : Z) :
  fits_long dm rate ->
  forall (cfgs pre : list hsdk_pll_cfg) (best_rate : Z),
    Forall (fun c => fits_long dm (Cfg.rate c)) (entries cfgs) ->
    fits_long dm best_rate ->
    nearest_first rate pre best_rate ->
    nearest_first rate (pre ++ entries cfgs)
                  (round_rate_loop dm rate cfgs best_rate).
Proof.
  intros Hrate. induction cfgs as [| c rest IH]; intros pre best_rate Hall Hbest Hnf.
  - cbn. rewrite app_nil_r. assumption.
  - cbn [round_rate_loop entries] in *.
    destruct (Cfg.rate c =? 0).
    + rewrite app_nil_r. assumption.
    + inversion Hall as [| ? ? Hc Hrest]; subst.
      rewrite !abs_difference by assumption.
      replace (pre ++ c :: entries rest) with ((pre ++ [c]) ++ entries rest)
        by (rewrite <- app_assoc; reflexivity).
      destruct Hnf as [l1 [cb [l2 [Hpre [Hcb [Hl1 Hl2]]]]]].
      destruct (Z.ltb_spec (Z.abs (rate - Cfg.rate c))
                           (Z.abs (rate - best_rate))) as [Hlt | Hge].
      * apply IH; [assumption | assumption |].
        exists pre, c, []. repeat split.
        -- intros c' Hin. rewrite Hpre in Hin.
           apply in_app_or in Hin. destruct Hin as [Hin | [<- | Hin]].
           ++ specialize (Hl1 c' Hin). lia.
           ++ rewrite Hcb. assumption.
           ++ specialize (Hl2 c' Hin). lia.
        -- intros c' [].
      * apply IH; [assumption | assumption |].
        exists l1, cb, (l2 ++ [c]). repeat split.
        -- rewrite Hpre, <- app_assoc. reflexivity.
        -- assumption.
        -- assumption.
        -- intros c' Hin. apply in_app_or in Hin.
           destruct Hin as [Hin | [<- | []]]; [apply Hl2; assumption | assumption].
Qed.

(** The matcher is a nearest match with ties to the earliest entry for
    every request and table whose rates fit a [long]: below 2^31 Hz with
    32-bit longs, below 2^63 Hz with 64-bit longs. *)
Lemma round_rate_nearest_in_range (dm : data_model) (clk : hsdk_pll_clk)
                                  (rate : Z) :
  fits_long dm rate ->
  Forall (fun c => fits_long dm (Cfg.rate c))
         (entries (pll_cfg (pll_devdata clk))) ->
  entries (pll_cfg (pll_devdata clk)) <> [] ->
  nearest_first rate (entries (pll_cfg (pll_devdata clk)))
                (hsdk_pll_round_rate dm clk rate).
Proof.
  intros Hrate. unfold hsdk_pll_round_rate.
  destruct (pll_cfg (pll_devdata clk)) as [| c0 rest]; [intros _ H; contradiction |].
  cbn [entries]. destruct (Cfg.rate c0 =? 0); [intros _ H; contradiction |].
  intros Hall _. inversion Hall as [| ? ? Hc0 Hrest]; subst.
  change (c0 :: entries rest) with ([c0] ++ entries rest).
  apply round_rate_loop_nearest; try assumption.
  exists [], c0, []. repeat split; intros c' [].
Qed.

(** C5, where the code departs from it.  The differences are taken in
    [unsigned long] and read back as [long], so a request far above the
    table wraps: with 32-bit longs a request of 4,000,000,000 Hz returns
    the first entry, 100 MHz, although the 1600 MHz entry is strictly
    nearer; with 64-bit longs the same happens at 2^63 + 1,600,000,005 Hz. *)
Theorem round_rate_wraps_on_large_request :
  (0 <= 4000000000 < 2 ^ BITS_PER_LONG ILP32 /\
   hsdk_pll_round_rate ILP32 hsdk_core_clk 4000000000 = 100000000 /\
   In (mk_cfg 1600000000 1 47 0 0) (entries asdt_pll_cfg) /\
   Z.abs (4000000000 - 1600000000) < Z.abs (4000000000 - 100000000) /\
   ~ nearest_first 4000000000 (entries asdt_pll_cfg) 100000000) /\
  (0 <= 2 ^ 63 + 1600000005 < 2 ^ BITS_PER_LONG LP64 /\
   hsdk_pll_round_rate LP64 hsdk_core_clk (2 ^ 63 + 1600000005) = 100000000 /\
   ~ nearest_first (2 ^ 63 + 1600000005) (entries asdt_pll_cfg) 100000000).
Proof.
  assert (Hin : In (mk_cfg 1600000000 1 47 0 0) (entries asdt_pll_cfg))
    by (cbn; tauto).
  assert (Hno : forall rate,
             Z.abs (rate - 1600000000) < Z.abs (rate - 100000000) ->
             ~ nearest_first rate (entries asdt_pll_cfg) 100000000).
  { intros rate Hlt [l1 [c [l2 [Hsplit [Hc [Hl1 Hl2]]]]]].
    rewrite Hsplit in Hin. apply in_app_or in Hin.
    destruct Hin as [Hin | [Heq | Hin]].
    - specialize (Hl1 _ Hin). cbn [Cfg.rate] in Hl1. lia.
    - subst c. cbn [Cfg.rate] in Hc. discriminate.
    - specialize (Hl2 _ Hin). cbn [Cfg.rate] in Hl2. lia. }
  split; [split; [| split; [| split; [| split]]] | split; [| split]].
  - cbn. lia.
  - vm_compute. reflexivity.
  - exact Hin.
  - lia.
  - apply Hno. lia.
  - cbn. lia.
  - vm_compute. reflexivity.
  - apply Hno. change (2 ^ 63) with 9223372036854775808. lia.
Qed.

(** The wrap-around is in the subtraction, before [abs] sees anything.
    With 32-bit longs, a request of 0 Hz against the rates 3,000,000,000 and
    2,000,000,000, and a request of 2,294,967,297 Hz against the rates
    1,000,000,001 and 1, hand [abs] the same pair of operands, while the
    nearer rate is the second one in the first case and the first one in
    the second: no reading of the operands can order both cases rightly. *)
Remark unsigned_differences_are_ambiguous :
  ulong ILP32 (0 - 3000000000) = ulong ILP32 (2294967297 - 1000000001) /\
  ulong ILP32 (0 - 2000000000) = ulong ILP32 (2294967297 - 1) /\
  Z.abs (0 - 2000000000) < Z.abs (0 - 3000000000) /\
  Z.abs (2294967297 - 1000000001) < Z.abs (2294967297 - 1).
Proof. repeat split. Qed.

(** ** Sequencer *)

Lemma reads_at_app (addr : Z) (a b : list event) :
  reads_at addr (a ++ b) = reads_at addr a ++ reads_at addr b.
Proof.
  induction a as [| e a IH]; [reflexivity |].
  destruct e; cbn [app reads_at]; try assumption.
  destruct (_ =? addr); cbn [app]; rewrite IH; reflexivity.
Qed.

Lemma writes_at_app (addr : Z) (a b : list event) :
  writes_at addr (a ++ b) = writes_at addr a ++ writes_at addr b.
Proof.
  induction a as [| e a IH]; [reflexivity |].
  destruct e; cbn [app writes_at]; try assumption.
  destruct (_ =? addr); cbn [app]; rewrite IH; reflexivity.
Qed.

(** Every run of either [update_rate] function ends in one of the three
    outcomes. *)
Lemma call_update_rate_outcome (hw : device) (clk : hsdk_pll_clk) (rate : Z)
                               (cfg : hsdk_pll_cfg) (h : list event) :
  update_outcome clk rate cfg (fst (call_update_rate hw clk rate cfg h))
                              (snd (call_update_rate hw clk rate cfg h)).
Proof.
  unfold call_update_rate.
  pose proof (lock_timeout clk rate cfg) as Ht.
  pose proof (hardware_error clk rate cfg) as He.
  pose proof (locked_ok clk rate cfg) as Hk.
  unfold pre_step, post_step, program in Ht, He, Hk.
  destruct (update_rate (pll_devdata clk)).
  - unfold hsdk_pll_core_update_rate, hsdk_pll_set_cfg, hsdk_pll_is_locked,
      hsdk_pll_is_err, hsdk_pll_spcwrite, hsdk_pll_write, hsdk_pll_read,
      bind, emit, ret.
    destruct (rate >? CORE_IF_CLK_THRESHOLD_HZ);
      cbn [fst snd app negb];
      match goal with
      | |- context [Z.land ?s CGU_PLL_STATUS_LOCK =? 0] =>
          destruct (Z.eqb_spec (Z.land s CGU_PLL_STATUS_LOCK) 0) as [El | El]
      end; cbn [fst snd app negb]; try (apply Ht; assumption);
      match goal with
      | |- context [Z.land ?s CGU_PLL_STATUS_ERR =? 0] =>
          destruct (Z.eqb_spec (Z.land s CGU_PLL_STATUS_ERR) 0) as [Ee | Ee]
      end; cbn [fst snd app negb]; try (apply He; assumption);
      destruct (rate <=? CORE_IF_CLK_THRESHOLD_HZ);
      cbn [fst snd app]; apply Hk; assumption.
  - unfold hsdk_pll_comm_update_rate, hsdk_pll_set_cfg, hsdk_pll_is_locked,
      hsdk_pll_is_err, hsdk_pll_write, hsdk_pll_read, bind, emit, ret.
    cbn [fst snd app negb];
      match goal with
      | |- context [Z.land ?s CGU_PLL_STATUS_LOCK =? 0] =>
          destruct (Z.eqb_spec (Z.land s CGU_PLL_STATUS_LOCK) 0) as [El | El]
      end; cbn [fst snd app negb]; try (apply Ht; assumption);
      match goal with
      | |- context [Z.land ?s CGU_PLL_STATUS_ERR =? 0] =>
          destruct (Z.eqb_spec (Z.land s CGU_PLL_STATUS_ERR) 0) as [Ee | Ee]
      end; cbn [fst snd app negb]; [apply Hk | apply He]; assumption.
Qed.

(** ** Rate setting *)

(** The lookup of [hsdk_pll_set_rate] reaches [update_rate] as soon as the
    rate it looks for is the rate of an entry. *)
Lemma set_rate_loop_finds (dm : data_model) (hw : device) (clk : hsdk_pll_clk)
                          (best_rate : Z) (cfgs : list hsdk_pll_cfg) :
  (exists c, In c (entries cfgs) /\ Cfg.rate c = best_rate) ->
  exists cfg,
    In cfg (entries cfgs) /\ Cfg.rate cfg = best_rate /\
    set_rate_loop dm hw clk cfgs best_rate
    = (r <- call_update_rate hw clk best_rate cfg ;; ret (ulong dm r)).
Proof.
  induction cfgs as [| c rest IH]; intros [c' [Hin Hc']].
  - destruct Hin.
  - cbn [entries set_rate_loop] in *.
    destruct (Cfg.rate c =? 0); [destruct Hin |].
    destruct (Z.eqb_spec (Cfg.rate c) best_rate) as [E | E].
    + exists c. split; [left; reflexivity | split; [assumption | reflexivity]].
    + destruct Hin as [-> | Hin]; [contradiction |].
      destruct IH as [cfg [Hcfg [Hr Hrun]]]; [exists c'; split; assumption |].
      exists cfg. split; [right; assumption | split; assumption].
Qed.

(** On an empty table nothing is programmed: the call reports the rate it
    could not find and returns [-EINVAL]. *)
Lemma set_rate_empty (dm : data_model) (hw : device) (clk : hsdk_pll_clk)
                     (rate : Z) (h : list event) :
  entries (pll_cfg (pll_devdata clk)) = [] ->
  hsdk_pll_set_rate dm hw clk rate h
  = (ulong dm (- EINVAL), [pr_err (hsdk_pll_round_rate dm clk rate)]).
Proof.
  unfold hsdk_pll_set_rate.
  destruct (pll_cfg (pll_devdata clk)) as [| c rest]; [reflexivity |].
  cbn [entries set_rate_loop].
  destruct (Cfg.rate c =? 0); [reflexivity | discriminate].
Qed.

(** On a non-empty table the call is one run of [update_rate] on the
    matched entry, with the matched rate. *)
Lemma set_rate_outcome (dm : data_model) (hw : device) (clk : hsdk_pll_clk)
                       (rate : Z) (h : list event) :
  entries (pll_cfg (pll_devdata clk)) <> [] ->
  exists cfg r,
    In cfg (entries (pll_cfg (pll_devdata clk))) /\
    Cfg.rate cfg = hsdk_pll_round_rate dm clk rate /\
    fst (hsdk_pll_set_rate dm hw clk rate h) = ulong dm r /\
    update_outcome clk (hsdk_pll_round_rate dm clk rate) cfg r
                   (snd (hsdk_pll_set_rate dm hw clk rate h)).
Proof.
  intros Hne.
  destruct (set_rate_loop_finds dm hw clk (hsdk_pll_round_rate dm clk rate)
              (pll_cfg (pll_devdata clk)))
    as [cfg [Hin [Hr Hrun]]]; [apply round_rate_in_entries; assumption |].
  pose proof (call_update_rate_outcome hw clk
                (hsdk_pll_round_rate dm clk rate) cfg h) as Hout.
  exists cfg, (fst (call_update_rate hw clk
                      (hsdk_pll_round_rate dm clk rate) cfg h)).
  unfold hsdk_pll_set_rate. rewrite Hrun. unfold bind, ret.
  destruct (call_update_rate hw clk (hsdk_pll_round_rate dm clk rate) cfg h)
    as [r em].
  cbn [fst snd] in *. rewrite app_nil_r. repeat split; assumption.
Qed.

(** Unfolds the stages of an outcome down to explicit event lists. *)
Ltac stages :=
  unfold pre_step, post_step, program in *;
  repeat match goal with
         | |- context [match update_rate ?d with _ => _ end] =>
             destruct (update_rate d)
         | H : context [match update_rate ?d with _ => _ end] |- _ =>
             destruct (update_rate d)
         | |- context [if ?r >? CORE_IF_CLK_THRESHOLD_HZ then _ else _] =>
             destruct (Z.gtb_spec r CORE_IF_CLK_THRESHOLD_HZ)
         | H : context [if ?r >? CORE_IF_CLK_THRESHOLD_HZ then _ else _] |- _ =>
             destruct (Z.gtb_spec r CORE_IF_CLK_THRESHOLD_HZ)
         | |- context [if ?r <=? CORE_IF_CLK_THRESHOLD_HZ then _ else _] =>
             destruct (Z.leb_spec r CORE_IF_CLK_THRESHOLD_HZ)
         | H : context [if ?r <=? CORE_IF_CLK_THRESHOLD_HZ then _ else _] |- _ =>
             destruct (Z.leb_spec r CORE_IF_CLK_THRESHOLD_HZ)
         end;
  cbn [app] in *.

Lemma update_outcome_no_pr_err (clk : hsdk_pll_clk) (rate : Z)
                               (cfg : hsdk_pll_cfg) (r : Z) (em : list event) :
  update_outcome clk rate cfg r em -> forall b, ~ In (pr_err b) em.
Proof.
  intros Hout b Hin.
  destruct Hout; stages; cbn [In] in Hin;
    repeat match goal with
           | H : _ \/ _ |- _ => destruct H
           | H : _ = pr_err _ |- _ => discriminate H
           | H : False |- _ => destruct H
           end.
Qed.

(** C10: on a non-empty table, whatever rate is requested, the rate
    [hsdk_pll_round_rate] returns is the rate of a table entry; the lookup
    of [hsdk_pll_set_rate] therefore finds an entry and hands it to
    [update_rate], and the fallback after the loop (the error report and
    its [-EINVAL]) is not reached. *)
Theorem set_rate_finds_entry (dm : data_model) (hw : device)
                             (clk : hsdk_pll_clk) (rate : Z)
                             (h : list event) :
  entries (pll_cfg (pll_devdata clk)) <> [] ->
  exists cfg,
    In cfg (entries (pll_cfg (pll_devdata clk))) /\
    Cfg.rate cfg = hsdk_pll_round_rate dm clk rate /\
    hsdk_pll_set_rate dm hw clk rate h
    = (r <- call_update_rate hw clk (hsdk_pll_round_rate dm clk rate) cfg ;;
       ret (ulong dm r)) h /\
    forall b, ~ In (pr_err b) (snd (hsdk_pll_set_rate dm hw clk rate h)).
Proof.
  intros Hne.
  destruct (set_rate_loop_finds dm hw clk (hsdk_pll_round_rate dm clk rate)
              (pll_cfg (pll_devdata clk)))
    as [cfg [Hin [Hr Hrun]]]; [apply round_rate_in_entries; assumption |].
  exists cfg. repeat split; try assumption.
  - unfold hsdk_pll_set_rate. rewrite Hrun. reflexivity.
  - destruct (set_rate_outcome dm hw clk rate h Hne)
      as [cfg' [r [_ [_ [_ Hout]]]]].
    eapply update_outcome_no_pr_err. eassumption.
Qed.

Lemma set_rate_finds_entry_witness :
  exists cfg,
    In cfg (entries asdt_pll_cfg) /\
    Cfg.rate cfg = 233000000 /\
    hsdk_pll_set_rate ILP32 (pll_device hsdk_core_clk 1) hsdk_core_clk
                      250000000 []
    = (r <- call_update_rate (pll_device hsdk_core_clk 1) hsdk_core_clk
                             233000000 cfg ;;
       ret (ulong ILP32 r)) [] /\
    forall b, ~ In (pr_err b)
                   (snd (hsdk_pll_set_rate ILP32 (pll_device hsdk_core_clk 1)
                                           hsdk_core_clk 250000000 [])).
Proof.
  apply (set_rate_finds_entry ILP32 (pll_device hsdk_core_clk 1)
                              hsdk_core_clk 250000000 []).
  discriminate.
Defined.


Lemma ctrl_is_not_core_if_div (clk : hsdk_pll_clk) :
  regs clk <> spec_regs clk ->
  (ctrl_addr clk =? core_if_div_addr clk) = false /\
  (core_if_div_addr clk =? ctrl_addr clk) = false.
Proof.
  unfold ctrl_addr, core_if_div_addr, CGU_PLL_CTRL, CREG_CORE_IF_DIV.
  intros Hne. split; apply Z.eqb_neq; lia.
Qed.

Lemma ulong_status_nonzero (dm : data_model) :
  ulong dm (- ETIMEDOUT) <> 0 /\ ulong dm (- EINVAL) <> 0 /\
  ulong dm (- ETIMEDOUT) <> ulong dm (- EINVAL) /\ ulong dm 0 = 0.
Proof. destruct dm; repeat split; discriminate. Qed.

(** Evaluates [reads_at] and [writes_at] on explicit event lists. *)
Ltac observe Hne :=
  cbn [reads_at writes_at app hd_error nth_error In] in *;
  repeat rewrite Z.eqb_refl in *;
  try (destruct (ctrl_is_not_core_if_div _ Hne) as [Hca Hac];
       repeat rewrite Hca in *; repeat rewrite Hac in *);
  cbn [reads_at writes_at app hd_error nth_error In] in *.

(** Refutes membership in an explicit list of distinct constants. *)
Ltac not_among :=
  let Hf := fresh "Hf" in
  intros Hf;
  repeat match type of Hf with _ \/ _ => destruct Hf as [Hf | Hf] end;
  first [discriminate Hf | contradiction].

(** One run of [update_rate], with the status samples the device gives. *)
Lemma call_update_rate_samples (hw : device) (clk : hsdk_pll_clk) (rate : Z)
                               (cfg : hsdk_pll_cfg) (h : list event) :
  let pre := pre_step clk rate
             ++ [iowrite32 (hsdk_pll_cfg_val cfg) (ctrl_addr clk)] in
  let wait := udelay HSDK_PLL_MAX_LOCK_TIME in
  let s1 := u32 (hw (h ++ pre ++ [wait]) (status_addr clk)) in
  let s2 := u32 (hw (h ++ pre ++ [wait; ioread32 (status_addr clk) s1])
                    (status_addr clk)) in
  call_update_rate hw clk rate cfg h =
  if Z.land s1 CGU_PLL_STATUS_LOCK =? 0
  then (- ETIMEDOUT, pre ++ [wait; ioread32 (status_addr clk) s1])
  else if Z.land s2 CGU_PLL_STATUS_ERR =? 0
  then (0, pre ++ [wait; ioread32 (status_addr clk) s1;
                   ioread32 (status_addr clk) s2] ++ post_step clk rate)
  else (- EINVAL, pre ++ [wait; ioread32 (status_addr clk) s1;
                          ioread32 (status_addr clk) s2]).
Proof.
  unfold call_update_rate, pre_step, post_step.
  destruct (update_rate (pll_devdata clk)).
  - unfold hsdk_pll_core_update_rate, hsdk_pll_set_cfg, hsdk_pll_is_locked,
      hsdk_pll_is_err, hsdk_pll_spcwrite, hsdk_pll_write, hsdk_pll_read,
      bind, emit, ret.
    destruct (rate >? CORE_IF_CLK_THRESHOLD_HZ);
      cbn [fst snd app negb]; rewrite <- ?app_assoc; cbn [app];
      change (regs clk + CGU_PLL_STATUS) with (status_addr clk);
      change (regs clk + CGU_PLL_CTRL) with (ctrl_addr clk);
      change (spec_regs clk + CREG_CORE_IF_DIV) with (core_if_div_addr clk);
      match goal with
      | |- context [Z.land ?s CGU_PLL_STATUS_LOCK =? 0] =>
          destruct (Z.land s CGU_PLL_STATUS_LOCK =? 0)
      end; cbn [fst snd app negb]; try reflexivity;
      rewrite <- ?app_assoc; cbn [app];
      match goal with
      | |- context [Z.land ?s CGU_PLL_STATUS_ERR =? 0] =>
          destruct (Z.land s CGU_PLL_STATUS_ERR =? 0)
      end; cbn [fst snd app negb]; try reflexivity;
      destruct (rate <=? CORE_IF_CLK_THRESHOLD_HZ); reflexivity.
  - unfold hsdk_pll_comm_update_rate, hsdk_pll_set_cfg, hsdk_pll_is_locked,
      hsdk_pll_is_err, hsdk_pll_write, hsdk_pll_read, bind, emit, ret.
    cbn [fst snd app negb]; rewrite <- ?app_assoc; cbn [app];
      change (regs clk + CGU_PLL_STATUS) with (status_addr clk);
      change (regs clk + CGU_PLL_CTRL) with (ctrl_addr clk);
      match goal with
      | |- context [Z.land ?s CGU_PLL_STATUS_LOCK =? 0] =>
          destruct (Z.land s CGU_PLL_STATUS_LOCK =? 0)
      end; cbn [fst snd app negb]; try reflexivity;
      rewrite <- ?app_assoc; cbn [app];
      match goal with
      | |- context [Z.land ?s CGU_PLL_STATUS_ERR =? 0] =>
          destruct (Z.land s CGU_PLL_STATUS_ERR =? 0)
      end; cbn [fst snd app negb]; reflexivity.
Qed.

(** C6: in every variant (every instance with a non-empty table) and for
    every request, [hsdk_pll_set_rate] waits 100 microseconds and then
    samples the status register; the sample is what the device answers at
    that point.  If it shows the lock bit clear, the call returns
    [-ETIMEDOUT], does nothing more and has not written divide-by-1 to
    the interface divider, whatever the rate.  If it shows the lock bit
    set, the status register is sampled again, and if that sample shows
    the error bit set, the call returns [-EINVAL], again doing nothing
    more and without that write. *)
Theorem set_rate_lock_failures (dm : data_model) (hw : device)
                               (clk : hsdk_pll_clk) (rate : Z)
                               (h : list event) :
  regs clk <> spec_regs clk ->
  entries (pll_cfg (pll_devdata clk)) <> [] ->
  exists pre s1 rest,
    snd (hsdk_pll_set_rate dm hw clk rate h)
    = pre ++ udelay HSDK_PLL_MAX_LOCK_TIME
          :: ioread32 (status_addr clk) s1 :: rest /\
    reads_at (status_addr clk) pre = [] /\
    s1 = u32 (hw (h ++ pre ++ [udelay HSDK_PLL_MAX_LOCK_TIME])
                 (status_addr clk)) /\
    (Z.land s1 CGU_PLL_STATUS_LOCK = 0 ->
     fst (hsdk_pll_set_rate dm hw clk rate h) = ulong dm (- ETIMEDOUT) /\
     rest = [] /\
     ~ In CREG_CORE_IF_CLK_DIV_1
          (writes_at (core_if_div_addr clk)
                     (snd (hsdk_pll_set_rate dm hw clk rate h)))) /\
    (Z.land s1 CGU_PLL_STATUS_LOCK <> 0 ->
     exists s2 rest',
       rest = ioread32 (status_addr clk) s2 :: rest' /\
       s2 = u32 (hw (h ++ pre ++ [udelay HSDK_PLL_MAX_LOCK_TIME;
                                  ioread32 (status_addr clk) s1])
                    (status_addr clk)) /\
       (Z.land s2 CGU_PLL_STATUS_ERR <> 0 ->
        fst (hsdk_pll_set_rate dm hw clk rate h) = ulong dm (- EINVAL) /\
        rest' = [] /\
        ~ In CREG_CORE_IF_CLK_DIV_1
             (writes_at (core_if_div_addr clk)
                        (snd (hsdk_pll_set_rate dm hw clk rate h))))).
Proof.
  intros Hne Hes.
  destruct (set_rate_loop_finds dm hw clk (hsdk_pll_round_rate dm clk rate)
              (pll_cfg (pll_devdata clk)))
    as [cfg [_ [_ Hrun]]]; [apply round_rate_in_entries; assumption |].
  unfold hsdk_pll_set_rate. rewrite Hrun. unfold bind, ret.
  rewrite call_update_rate_samples. cbv zeta.
  set (best := hsdk_pll_round_rate dm clk rate).
  set (pre := pre_step clk best
              ++ [iowrite32 (hsdk_pll_cfg_val cfg) (ctrl_addr clk)]).
  set (s1 := u32 (hw (h ++ pre ++ [udelay HSDK_PLL_MAX_LOCK_TIME])
                     (status_addr clk))).
  set (s2 := u32 (hw (h ++ pre ++ [udelay HSDK_PLL_MAX_LOCK_TIME;
                                   ioread32 (status_addr clk) s1])
                     (status_addr clk))).
  assert (Hpre : reads_at (status_addr clk) pre = []).
  { subst pre. rewrite reads_at_app. unfold pre_step.
    destruct (update_rate (pll_devdata clk));
      [destruct (best >? CORE_IF_CLK_THRESHOLD_HZ) |]; reflexivity. }
  assert (Hno : forall tail,
             writes_at (core_if_div_addr clk) tail = [] ->
             ~ In CREG_CORE_IF_CLK_DIV_1
                  (writes_at (core_if_div_addr clk) (pre ++ tail))).
  { intros tail Ht. rewrite writes_at_app, Ht, app_nil_r. subst pre.
    rewrite writes_at_app.
    destruct (ctrl_is_not_core_if_div clk Hne) as [Hca _].
    cbn [writes_at]. rewrite Hca, app_nil_r. unfold pre_step.
    destruct (update_rate (pll_devdata clk));
      [destruct (best >? CORE_IF_CLK_THRESHOLD_HZ) |];
      cbn [writes_at]; rewrite ?Z.eqb_refl; cbn [In]; not_among. }
  exists pre, s1.
  destruct (Z.eqb_spec (Z.land s1 CGU_PLL_STATUS_LOCK) 0) as [Hl | Hl].
  - exists []. cbn [fst snd]. rewrite app_nil_r.
    split; [reflexivity |]. split; [assumption |]. split; [reflexivity |].
    split; [| intros Hc; contradiction].
    intros _. split; [reflexivity |]. split; [reflexivity |].
    apply Hno. reflexivity.
  - destruct (Z.eqb_spec (Z.land s2 CGU_PLL_STATUS_ERR) 0) as [He | He].
    + exists (ioread32 (status_addr clk) s2 :: post_step clk best).
      cbn [fst snd]. rewrite app_nil_r.
      split; [reflexivity |]. split; [assumption |]. split; [reflexivity |].
      split; [intros Hc; contradiction |].
      intros _. exists s2, (post_step clk best).
      split; [reflexivity |]. split; [reflexivity |].
      intros Hc. contradiction.
    + exists [ioread32 (status_addr clk) s2].
      cbn [fst snd]. rewrite app_nil_r.
      split; [reflexivity |]. split; [assumption |]. split; [reflexivity |].
      split; [intros Hc; contradiction |].
      intros _. exists s2, [].
      split; [reflexivity |]. split; [reflexivity |].
      intros _. split; [reflexivity |]. split; [reflexivity |].
      apply Hno. reflexivity.
Qed.

Lemma set_rate_lock_failures_witness :
  (fst (hsdk_pll_set_rate ILP32 (reads_as 0) hsdk_core_clk 250000000 [])
   = ulong ILP32 (- ETIMEDOUT) /\
   ~ In CREG_CORE_IF_CLK_DIV_1
        (writes_at (core_if_div_addr hsdk_core_clk)
           (snd (hsdk_pll_set_rate ILP32 (reads_as 0) hsdk_core_clk
                                   250000000 [])))) /\
  fst (hsdk_pll_set_rate ILP32 (reads_as 3) hsdk_core_clk 250000000 [])
  = ulong ILP32 (- EINVAL).
Proof.
  split.
  - destruct (set_rate_lock_failures ILP32 (reads_as 0) hsdk_core_clk
                250000000 [])
      as [pre [s1 [rest [_ [_ [Hs1 [Ht _]]]]]]];
      [vm_compute; discriminate | discriminate |].
    destruct (Ht ltac:(rewrite Hs1; reflexivity)) as [Hr [_ Hw]].
    split; assumption.
  - destruct (set_rate_lock_failures ILP32 (reads_as 3) hsdk_core_clk
                250000000 [])
      as [pre [s1 [rest [_ [_ [Hs1 [_ He]]]]]]];
      [vm_compute; discriminate | discriminate |].
    destruct (He ltac:(rewrite Hs1; vm_compute; discriminate))
      as [s2 [rest' [_ [Hs2 Herr]]]].
    destruct (Herr ltac:(rewrite Hs2; vm_compute; discriminate)) as [Hr _].
    assumption.
Defined.




(** C2, as the code has it.  The threshold is compared with the matched
    rate, the one [hsdk_pll_round_rate] returns, not with the requested one.
    Core-clock variant: when the matched rate exceeds 500,000,000 Hz the
    call first writes divide-by-2 to the interface divider, then the control
    register, and never writes the divider again; when the matched rate is
    at most 500,000,000 Hz the divider is either not written at all (the
    call failed) or written once, with divide-by-1, as the last event, after
    status samples that showed the lock bit set and the error bit clear.
    The other variants never write the interface divider. *)
Theorem core_if_div_sequencing (dm : data_model) (hw : device)
                               (clk : hsdk_pll_clk) (rate : Z)
                               (h : list event) :
  regs clk <> spec_regs clk ->
  entries (pll_cfg (pll_devdata clk)) <> [] ->
  let best_rate := hsdk_pll_round_rate dm clk rate in
  let r := fst (hsdk_pll_set_rate dm hw clk rate h) in
  let em := snd (hsdk_pll_set_rate dm hw clk rate h) in
  (update_rate (pll_devdata clk) = core_update_rate ->
   best_rate > CORE_IF_CLK_THRESHOLD_HZ ->
   exists v rest,
     em = iowrite32 CREG_CORE_IF_CLK_DIV_2 (core_if_div_addr clk)
          :: iowrite32 v (ctrl_addr clk) :: rest /\
     writes_at (core_if_div_addr clk) rest = []) /\
  (update_rate (pll_devdata clk) = core_update_rate ->
   best_rate <= CORE_IF_CLK_THRESHOLD_HZ ->
   (r <> 0 /\ writes_at (core_if_div_addr clk) em = []) \/
   (r = 0 /\
    exists pre s1 s2,
      em = pre ++ [ioread32 (status_addr clk) s1;
                   ioread32 (status_addr clk) s2;
                   iowrite32 CREG_CORE_IF_CLK_DIV_1 (core_if_div_addr clk)] /\
      Z.land s1 CGU_PLL_STATUS_LOCK <> 0 /\
      Z.land s2 CGU_PLL_STATUS_ERR = 0 /\
      writes_at (core_if_div_addr clk) pre = [])) /\
  (update_rate (pll_devdata clk) = comm_update_rate ->
   writes_at (core_if_div_addr clk) em = []).
Proof.
  intros Hne Hes best_rate r em.
  destruct (set_rate_outcome dm hw clk rate h Hes)
    as [cfg [r' [_ [_ [Hr Hout]]]]].
  fold best_rate in Hout. fold em in Hout. fold r in Hr.
  destruct (ulong_status_nonzero dm) as [Nt [Ne [_ Z0]]].
  destruct (ctrl_is_not_core_if_div clk Hne) as [Hca Hac].
  split; [| split].
  - intros Hu Hgt.
    destruct Hout; unfold pre_step, post_step, program; rewrite Hu;
      destruct (Z.gtb_spec best_rate CORE_IF_CLK_THRESHOLD_HZ); try lia;
      try (destruct (Z.leb_spec best_rate CORE_IF_CLK_THRESHOLD_HZ); try lia);
      cbn [app]; eexists; eexists; (split; [reflexivity |]);
      cbn [writes_at]; reflexivity.
  - intros Hu Hle.
    destruct Hout; unfold pre_step, post_step, program; rewrite Hu;
      destruct (Z.gtb_spec best_rate CORE_IF_CLK_THRESHOLD_HZ); try lia;
      try (destruct (Z.leb_spec best_rate CORE_IF_CLK_THRESHOLD_HZ); try lia);
      cbn [app].
    + left. split; [rewrite Hr; assumption |].
      cbn [writes_at]. rewrite Hca. reflexivity.
    + left. split; [rewrite Hr; assumption |].
      cbn [writes_at]. rewrite Hca. reflexivity.
    + right. split; [rewrite Hr; assumption |].
      exists [iowrite32 (hsdk_pll_cfg_val cfg) (ctrl_addr clk);
              udelay HSDK_PLL_MAX_LOCK_TIME], s1, s2.
      repeat split; try assumption.
      cbn [writes_at]. rewrite Hca. reflexivity.
  - intros Hu.
    destruct Hout; unfold pre_step, post_step, program; rewrite Hu;
      cbn [app writes_at]; rewrite Hca; reflexivity.
Qed.

Lemma core_if_div_sequencing_witness :
  (exists v rest,
     snd (hsdk_pll_set_rate ILP32 (pll_device hsdk_core_clk 1) hsdk_core_clk
                            560000000 [])
     = iowrite32 CREG_CORE_IF_CLK_DIV_2 (core_if_div_addr hsdk_core_clk)
       :: iowrite32 v (ctrl_addr hsdk_core_clk) :: rest /\
     writes_at (core_if_div_addr hsdk_core_clk) rest = []) /\
  writes_at (core_if_div_addr hsdk_hdmi_clk)
    (snd (hsdk_pll_set_rate ILP32 (pll_device hsdk_hdmi_clk 1) hsdk_hdmi_clk
                            560000000 [])) = [].
Proof.
  split.
  - destruct (core_if_div_sequencing ILP32 (pll_device hsdk_core_clk 1)
                hsdk_core_clk 560000000 []) as [Hgt _];
      [vm_compute; discriminate | discriminate |].
    apply Hgt; reflexivity.
  - destruct (core_if_div_sequencing ILP32 (pll_device hsdk_hdmi_clk 1)
                hsdk_hdmi_clk 560000000 []) as [_ [_ Hcomm]];
      [vm_compute; discriminate | discriminate |].
    apply Hcomm. reflexivity.
Defined.

(** C2 as stated fails for requests between the threshold and the midpoint
    to the next entry.  The core clock asked for 540 MHz, above the
    threshold, is matched to 500 MHz: the control register is written
    first, divide-by-2 is never written, and divide-by-1 is written after
    lock. *)
Lemma core_if_div_follows_matched_rate :
  540000000 > CORE_IF_CLK_THRESHOLD_HZ /\
  hsdk_pll_round_rate ILP32 hsdk_core_clk 540000000 = 500000000 /\
  snd (hsdk_pll_set_rate ILP32 (pll_device hsdk_core_clk 1) hsdk_core_clk
                         540000000 [])
  = [iowrite32 (hsdk_pll_cfg_val (mk_cfg 500000000 0 14 1 0))
               (ctrl_addr hsdk_core_clk);
     udelay HSDK_PLL_MAX_LOCK_TIME;
     ioread32 (status_addr hsdk_core_clk) 1;
     ioread32 (status_addr hsdk_core_clk) 1;
     iowrite32 CREG_CORE_IF_CLK_DIV_1 (core_if_div_addr hsdk_core_clk)] /\
  ~ In CREG_CORE_IF_CLK_DIV_2
       (writes_at (core_if_div_addr hsdk_core_clk)
          (snd (hsdk_pll_set_rate ILP32 (pll_device hsdk_core_clk 1)
                                  hsdk_core_clk 540000000 []))).
Proof.
  split; [reflexivity |]. split; [reflexivity |]. split; [reflexivity |].
  vm_compute. not_among.
Qed.

Lemma last_write_after (addr : Z) (h em : list event) (v : Z) :
  writes_at addr em = [v] -> last_write addr (h ++ em) = Some v.
Proof.
  intros Hw. unfold last_write.
  rewrite writes_at_app, Hw, map_app. cbn [map]. apply last_last.
Qed.

(** C3, as the code has it: on the generic table a request of 250 MHz is
    matched to 233,000,000 Hz; [hsdk_pll_set_rate] writes the control word
    of the entry (233000000, idiv 1, fbdiv 27, odiv 2, band 0), 0x3618, with
    powerdown and bypass clear, and nothing else, to the control register;
    and when that register reads back what was written, [hsdk_pll_get_rate]
    afterwards returns 33,333,333 * 56 / 8 = 233,333,331 Hz, the rate the
    dividers give, not the 233,000,000 the entry is named after. *)
Theorem set_rate_250MHz_then_get_rate (dm : data_model) (hw : device)
                                      (clk : hsdk_pll_clk) (h : list event) :
  pll_cfg (pll_devdata clk) = asdt_pll_cfg ->
  regs clk <> spec_regs clk ->
  latched hw (ctrl_addr clk) ->
  hsdk_pll_round_rate dm clk 250000000 = 233000000 /\
  writes_at (ctrl_addr clk) (snd (hsdk_pll_set_rate dm hw clk 250000000 h))
  = [hsdk_pll_cfg_val (mk_cfg 233000000 1 27 2 0)] /\
  (hsdk_pll_cfg_val (mk_cfg 233000000 1 27 2 0) = 0x3618 /\
   ctrl_idiv 0x3618 = 1 + 1 /\ ctrl_fbdiv 0x3618 = 2 * (1 + 27) /\
   ctrl_odiv 0x3618 = 2 ^ 2 /\
   Z.shiftr 0x3618 CGU_PLL_CTRL_BAND_SHIFT = 0 /\
   Z.land 0x3618 CGU_PLL_CTRL_PD = 0 /\
   Z.land 0x3618 CGU_PLL_CTRL_BYPASS = 0) /\
  fst (hsdk_pll_get_rate dm hw clk
         (h ++ snd (hsdk_pll_set_rate dm hw clk 250000000 h)))
  = Some 233333331.
Proof.
  intros Htbl Hne Hlatch.
  assert (Hbest : hsdk_pll_round_rate dm clk 250000000 = 233000000).
  { unfold hsdk_pll_round_rate. rewrite Htbl. destruct dm; reflexivity. }
  assert (Hw : writes_at (ctrl_addr clk)
                 (snd (hsdk_pll_set_rate dm hw clk 250000000 h))
               = [hsdk_pll_cfg_val (mk_cfg 233000000 1 27 2 0)]).
  { destruct (set_rate_outcome dm hw clk 250000000 h)
      as [cfg [r [Hin [Hrate [_ Hout]]]]]; [rewrite Htbl; discriminate |].
    rewrite Hbest in Hrate, Hout. rewrite Htbl in Hin.
    assert (Hcfg : cfg = mk_cfg 233000000 1 27 2 0).
    { cbn in Hin.
      repeat (destruct Hin as [<- | Hin]; [try discriminate Hrate |]);
        [reflexivity | destruct Hin]. }
    subst cfg.
    destruct Hout; stages; unfold CORE_IF_CLK_THRESHOLD_HZ in *; try lia;
      observe Hne; reflexivity. }
  split; [assumption |]. split; [assumption |].
  split; [repeat split |].
  rewrite get_rate_reads_ctrl. cbn [fst].
  change (regs clk + CGU_PLL_CTRL) with (ctrl_addr clk).
  rewrite (Hlatch _ _ (last_write_after _ h _ _ Hw)).
  destruct dm; reflexivity.
Qed.

Lemma set_rate_250MHz_then_get_rate_witness :
  hsdk_pll_round_rate ILP32 hsdk_sdt_clk 250000000 = 233000000 /\
  fst (hsdk_pll_get_rate ILP32 (pll_device hsdk_sdt_clk 1) hsdk_sdt_clk
         ([] ++ snd (hsdk_pll_set_rate ILP32 (pll_device hsdk_sdt_clk 1)
                                       hsdk_sdt_clk 250000000 [])))
  = Some 233333331.
Proof.
  assert (Hlatch : latched (pll_device hsdk_sdt_clk 1) (ctrl_addr hsdk_sdt_clk)).
  { intros h v Hv. unfold pll_device.
    change (ctrl_addr hsdk_sdt_clk =? status_addr hsdk_sdt_clk) with false.
    cbv iota. rewrite Hv. reflexivity. }
  destruct (set_rate_250MHz_then_get_rate ILP32 (pll_device hsdk_sdt_clk 1)
              hsdk_sdt_clk [] eq_refl ltac:(vm_compute; discriminate) Hlatch)
    as [Hbest [_ [_ Hget]]].
  split; assumption.
Defined.

(** C3 as stated fails in its last part: after the core clock has been set
    to the 233 MHz entry without error, [hsdk_pll_get_rate] returns
    233,333,331 Hz, not 233,000,000 Hz. *)
Lemma get_rate_after_set_rate_is_not_nominal :
  fst (hsdk_pll_set_rate ILP32 (pll_device hsdk_core_clk 1) hsdk_core_clk
                         250000000 []) = 0 /\
  fst ((hsdk_pll_set_rate ILP32 (pll_device hsdk_core_clk 1) hsdk_core_clk
                          250000000 ;;;
        hsdk_pll_get_rate ILP32 (pll_device hsdk_core_clk 1) hsdk_core_clk) [])
  = Some 233333331 /\
  fst ((hsdk_pll_set_rate ILP32 (pll_device hsdk_core_clk 1) hsdk_core_clk
                          250000000 ;;;
        hsdk_pll_get_rate ILP32 (pll_device hsdk_core_clk 1) hsdk_core_clk) [])
  <> Some 233000000.
Proof.
  split; [reflexivity |]. split; [reflexivity |]. vm_compute. discriminate.
Qed.

(** ** Control-word codec, bit by bit *)

(** A number below 2 ^ w has no bit at or above w, and none below 0. *)
Lemma testbit_out_of_range (x w j : Z) :
  0 <= x < 2 ^ w -> j < 0 \/ w <= j -> Z.testbit x j = false.
Proof.
  intros Hx [Hj | Hj]; [apply Z.testbit_neg_r; assumption |].
  destruct (Z_lt_le_dec w 0) as [Hw | Hw].
  - rewrite Z.pow_neg_r in Hx by assumption. lia.
  - rewrite <- (Z.mod_small x (2 ^ w)) by assumption.
    apply Z.mod_pow2_bits_high. lia.
Qed.

(** The bits of a field shifted into place and truncated to 32 bits. *)
Lemma testbit_u32_shiftl (x n i : Z) :
  0 <= i ->
  Z.testbit (u32 (Z.shiftl x n)) i = (i <? 32) && Z.testbit x (i - n).
Proof.
  intros Hi. unfold u32. rewrite Z.testbit_mod_pow2 by lia.
  rewrite Z.shiftl_spec by assumption. reflexivity.
Qed.

(** The bits of the word [hsdk_pll_set_cfg] writes. *)
Lemma cfg_val_testbit (cfg : hsdk_pll_cfg) (i : Z) :
  0 <= i ->
  Z.testbit (hsdk_pll_cfg_val cfg) i =
  (i <? 32) && (Z.testbit (idiv cfg) (i - 4) || Z.testbit (fbdiv cfg) (i - 9)
                || Z.testbit (odiv cfg) (i - 2) || Z.testbit (band cfg) (i - 20)).
Proof.
  intros Hi. unfold hsdk_pll_cfg_val.
  rewrite !Z.lor_spec, Z.bits_0, !testbit_u32_shiftl by assumption.
  unfold CGU_PLL_CTRL_IDIV_SHIFT, CGU_PLL_CTRL_FBDIV_SHIFT,
    CGU_PLL_CTRL_ODIV_SHIFT, CGU_PLL_CTRL_BAND_SHIFT.
  destruct (i <? 32); cbn [andb orb]; reflexivity.
Qed.

(** The word always fits the 32-bit register. *)
Lemma cfg_val_range (cfg : hsdk_pll_cfg) :
  0 <= hsdk_pll_cfg_val cfg < 2 ^ 32.
Proof.
  assert (Hm : hsdk_pll_cfg_val cfg mod 2 ^ 32 = hsdk_pll_cfg_val cfg).
  { apply Z.bits_inj'. intros i Hi.
    rewrite Z.testbit_mod_pow2, cfg_val_testbit by lia.
    destruct (i <? 32); reflexivity. }
  rewrite <- Hm. apply Z.mod_pos_bound. reflexivity.
Qed.

(** A slice of a word is the number whose bits it shows. *)
Lemma slice_eq (val l k x : Z) :
  0 <= l -> 0 <= k -> 0 <= x < 2 ^ k ->
  (forall i, 0 <= i < k -> Z.testbit val (i + l) = Z.testbit x i) ->
  Z.shiftr val l mod 2 ^ k = x.
Proof.
  intros Hl Hk Hx Hbits. apply Z.bits_inj'. intros i Hi.
  rewrite Z.testbit_mod_pow2, Z.shiftr_spec by lia.
  destruct (Z.ltb_spec i k) as [Hlt | Hge]; cbn [andb].
  - apply Hbits. lia.
  - symmetry. apply (testbit_out_of_range x k). assumption. lia.
Qed.

(** Clears the bits a field cannot have. *)
Ltac kill_bits :=
  repeat match goal with
         | H : 0 <= ?x < 2 ^ ?w |- context [Z.testbit ?x ?j] =>
             rewrite (testbit_out_of_range x w j H) by lia
         end.

(** With codes that fit their fields, the fields do not overlap: each
    divider is read back as it was written. *)
Lemma cfg_val_fields (cfg : hsdk_pll_cfg) :
  valid_fields cfg ->
  ctrl_idiv (hsdk_pll_cfg_val cfg) = idiv cfg + 1 /\
  ctrl_fbdiv (hsdk_pll_cfg_val cfg) = 2 * (fbdiv cfg + 1) /\
  ctrl_odiv (hsdk_pll_cfg_val cfg) = 2 ^ odiv cfg /\
  Z.shiftr (hsdk_pll_cfg_val cfg) CGU_PLL_CTRL_BAND_SHIFT = band cfg.
Proof.
  intros [Hi [Hf [Ho Hb]]].
  assert (Si : Z.shiftr (hsdk_pll_cfg_val cfg) 4 mod 2 ^ 5 = idiv cfg).
  { apply slice_eq; try lia. intros i Hr. rewrite cfg_val_testbit by lia.
    replace (i + 4 - 4) with i by lia.
    destruct (Z.ltb_spec (i + 4) 32); [| lia]. cbn [andb].
    kill_bits. rewrite !orb_false_r. reflexivity. }
  assert (Sf : Z.shiftr (hsdk_pll_cfg_val cfg) 9 mod 2 ^ 7 = fbdiv cfg).
  { apply slice_eq; try lia. intros i Hr. rewrite cfg_val_testbit by lia.
    replace (i + 9 - 9) with i by lia.
    destruct (Z.ltb_spec (i + 9) 32); [| lia]. cbn [andb].
    rewrite (testbit_out_of_range (idiv cfg) 5 (i + 9 - 4) Hi) by lia.
    rewrite (testbit_out_of_range (odiv cfg) 2 (i + 9 - 2) Ho) by lia.
    rewrite (testbit_out_of_range (band cfg) 12 (i + 9 - 20) Hb) by lia.
    rewrite !orb_false_r. reflexivity. }
  assert (So : Z.shiftr (hsdk_pll_cfg_val cfg) 2 mod 2 ^ 2 = odiv cfg).
  { apply slice_eq; try lia. intros i Hr. rewrite cfg_val_testbit by lia.
    replace (i + 2 - 2) with i by lia.
    destruct (Z.ltb_spec (i + 2) 32); [| lia]. cbn [andb].
    rewrite (testbit_out_of_range (idiv cfg) 5 (i + 2 - 4) Hi) by lia.
    rewrite (testbit_out_of_range (fbdiv cfg) 7 (i + 2 - 9) Hf) by lia.
    rewrite (testbit_out_of_range (band cfg) 12 (i + 2 - 20) Hb) by lia.
    rewrite !orb_false_r. reflexivity. }
  assert (Sb : Z.shiftr (hsdk_pll_cfg_val cfg) 20 mod 2 ^ 12 = band cfg).
  { apply slice_eq; try lia. intros i Hr. rewrite cfg_val_testbit by lia.
    replace (i + 20 - 20) with i by lia.
    destruct (Z.ltb_spec (i + 20) 32); [| lia]. cbn [andb].
    rewrite (testbit_out_of_range (idiv cfg) 5 (i + 20 - 4) Hi) by lia.
    rewrite (testbit_out_of_range (fbdiv cfg) 7 (i + 20 - 9) Hf) by lia.
    rewrite (testbit_out_of_range (odiv cfg) 2 (i + 20 - 2) Ho) by lia.
    reflexivity. }
  unfold ctrl_idiv, ctrl_fbdiv, ctrl_odiv, CGU_PLL_CTRL_IDIV_MASK,
    CGU_PLL_CTRL_FBDIV_MASK, CGU_PLL_CTRL_ODIV_MASK.
  rewrite !field_slice
    by (unfold CGU_PLL_CTRL_IDIV_SHIFT, CGU_PLL_CTRL_FBDIV_SHIFT,
          CGU_PLL_CTRL_ODIV_SHIFT; lia).
  unfold CGU_PLL_CTRL_IDIV_SHIFT, CGU_PLL_CTRL_FBDIV_SHIFT,
    CGU_PLL_CTRL_ODIV_SHIFT, CGU_PLL_CTRL_BAND_SHIFT.
  change (8 - 4 + 1) with 5. change (15 - 9 + 1) with 7.
  change (3 - 2 + 1) with 2.
  rewrite Si, Sf, So.
  change (2 ^ 5) with 32 in Hi. change (2 ^ 7) with 128 in Hf.
  change (2 ^ 2) with 4 in Ho.
  repeat split.
  - unfold u32. rewrite Z.mod_small; lia.
  - unfold u32. rewrite Z.mod_small; lia.
  - rewrite Z.shiftl_1_l. unfold u32. apply Z.mod_small.
    assert (odiv cfg = 0 \/ odiv cfg = 1 \/ odiv cfg = 2 \/ odiv cfg = 3)
      as [-> | [-> | [-> | ->]]] by lia; cbn; lia.
  - pose proof (cfg_val_range cfg) as Hr.
    rewrite <- Sb. symmetry. apply Z.mod_small.
    rewrite Z.shiftr_div_pow2 by lia.
    change (2 ^ 32) with (2 ^ 20 * 2 ^ 12) in Hr.
    split; [apply Z.div_pos; lia |].
    apply Z.div_lt_upper_bound; lia.
Qed.

(** No field reaches the powerdown and bypass bits. *)
Lemma cfg_val_running (cfg : hsdk_pll_cfg) :
  Z.land (hsdk_pll_cfg_val cfg) CGU_PLL_CTRL_PD = 0 /\
  Z.land (hsdk_pll_cfg_val cfg) CGU_PLL_CTRL_BYPASS = 0.
Proof.
  unfold CGU_PLL_CTRL_PD, CGU_PLL_CTRL_BYPASS.
  split; apply Z.eqb_eq; rewrite land_BIT by lia;
    rewrite cfg_val_testbit by lia;
    rewrite !Z.testbit_neg_r by lia; reflexivity.
Qed.

(** The quotient lies between 33,333,333 * 2 / 256 and 33,333,333 * 256,
    and is not a multiple of 2 ^ 32. *)
Lemma ctrl_quotient_range (val : Z) :
  260416 <= ctrl_quotient val <= 8533333248 /\
  ctrl_quotient val mod 2 ^ 32 <> 0.
Proof.
  unfold ctrl_quotient.
  pose proof (ctrl_fbdiv_range val) as Hf.
  destruct (ctrl_divisor_range val) as [_ Hd].
  set (fb := ctrl_fbdiv val) in *. set (d := ctrl_idiv val * ctrl_odiv val) in *.
  unfold PARENT_RATE.
  assert (Hlo : 260416 <= 33333333 * fb / d).
  { apply Z.div_le_lower_bound; nia. }
  assert (Hhi : 33333333 * fb / d <= 8533333248).
  { apply Z.div_le_upper_bound; nia. }
  split; [split; assumption |].
  intros Hm.
  pose proof (Z.div_mod (33333333 * fb / d) (2 ^ 32) ltac:(lia)) as Hk.
  rewrite Hm in Hk.
  assert (Hq : 33333333 * fb / d = 4294967296).
  { change (2 ^ 32) with 4294967296 in *. lia. }
  pose proof (Z.div_mod (33333333 * fb) d ltac:(lia)) as Hdm.
  pose proof (Z.mod_pos_bound (33333333 * fb) d ltac:(lia)) as Hr.
  rewrite Hq in Hdm. lia.
Qed.

(** For a running PLL neither the 64-bit product nor the 32-bit divisor
    wraps: the rate is the quotient, converted to [unsigned long]. *)
Lemma ctrl_rate_running (dm : data_model) (val : Z) :
  Z.land val CGU_PLL_CTRL_PD = 0 ->
  Z.land val CGU_PLL_CTRL_BYPASS = 0 ->
  hsdk_pll_ctrl_rate dm val = Some (ulong dm (ctrl_quotient val)).
Proof.
  intros Hpd Hby. unfold hsdk_pll_ctrl_rate. rewrite Hpd, Hby. cbn [Z.eqb negb].
  destruct (ctrl_divisor_range val) as [Hu Hd]. rewrite Hu.
  unfold do_div. destruct (Z.eqb_spec (ctrl_idiv val * ctrl_odiv val) 0); [lia |].
  pose proof (ctrl_fbdiv_range val) as Hf.
  unfold u64. rewrite Z.mod_small by (unfold PARENT_RATE; lia).
  reflexivity.
Qed.

(** The rate of a running PLL is never reported as 0. *)
Lemma ulong_quotient_nonzero (dm : data_model) (val : Z) :
  ulong dm (ctrl_quotient val) <> 0.
Proof.
  destruct (ctrl_quotient_range val) as [Hr Hm]. unfold ulong.
  destruct dm; cbn [BITS_PER_LONG]; [assumption |].
  rewrite Z.mod_small; [lia |].
  change (2 ^ 64) with 18446744073709551616. lia.
Qed.

Lemma cfg_val_quotient (cfg : hsdk_pll_cfg) :
  valid_fields cfg -> ctrl_quotient (hsdk_pll_cfg_val cfg) = dividers_rate cfg.
Proof.
  intros Hv. destruct (cfg_val_fields cfg Hv) as [Hi [Hf [Ho _]]].
  unfold ctrl_quotient, dividers_rate. rewrite Hi, Hf, Ho. reflexivity.
Qed.

(** The rate the dividers give is converted to [unsigned long] on return:
    unchanged with 64-bit longs, and with 32-bit longs as long as it is
    below 2 ^ 32. *)
Lemma dividers_rate_range (cfg : hsdk_pll_cfg) :
  valid_fields cfg -> 260416 <= dividers_rate cfg <= 8533333248.
Proof.
  intros Hv. rewrite <- (cfg_val_quotient cfg Hv).
  apply ctrl_quotient_range.
Qed.

Lemma ulong_dividers_rate (dm : data_model) (cfg : hsdk_pll_cfg) :
  valid_fields cfg ->
  dm = LP64 \/ dividers_rate cfg < 2 ^ 32 ->
  ulong dm (dividers_rate cfg) = dividers_rate cfg.
Proof.
  intros Hv Hfit. pose proof (dividers_rate_range cfg Hv) as Hr.
  unfold ulong. apply Z.mod_small.
  destruct Hfit as [-> | Hlt]; [| destruct dm]; cbn [BITS_PER_LONG];
    change (2 ^ 64) with 18446744073709551616;
    change (2 ^ 32) with 4294967296 in *; lia.
Qed.

(** The control register of the model PLL is a latch. *)
Lemma pll_device_latched (clk : hsdk_pll_clk) (status : Z) :
  latched (pll_device clk status) (ctrl_addr clk).
Proof.
  intros h v Hv. unfold pll_device.
  assert (E : (ctrl_addr clk =? status_addr clk) = false).
  { apply Z.eqb_neq. unfold ctrl_addr, status_addr, CGU_PLL_CTRL, CGU_PLL_STATUS.
    lia. }
  rewrite E, Hv. reflexivity.
Qed.

(** The codes of both shipped tables fit their fields. *)
Lemma shipped_tables_valid_fields :
  Forall valid_fields (entries asdt_pll_cfg) /\
  Forall valid_fields (entries hdmi_pll_cfg).
Proof.
  split; cbn [entries asdt_pll_cfg hdmi_pll_cfg Cfg.rate Z.eqb];
    repeat (apply Forall_cons; [unfold valid_fields; cbn; lia |]);
    apply Forall_nil.
Qed.

(** X1: codec round trip.  For divider and band codes that fit their
    fields, the word written by [hsdk_pll_set_cfg] reads back field by
    field (input divider idiv + 1, feedback divider 2 * (fbdiv + 1), output
    divider 2 ^ odiv, band unchanged).  On a control register that reads
    back what was written, [hsdk_pll_get_rate] right after
    [hsdk_pll_set_cfg] returns the quotient
    q = 33,333,333 * 2 * (fbdiv + 1) / ((idiv + 1) * 2 ^ odiv) converted to
    [unsigned long], whatever the band and the nominal rate of the entry:
    q itself with 64-bit longs, q modulo 2 ^ 32 with 32-bit longs, hence q
    itself whenever q is below 2 ^ 32.  q lies between 260,416 and
    8,533,333,248. *)
Theorem set_cfg_then_get_rate (dm : data_model) (hw : device)
                              (clk : hsdk_pll_clk) (cfg : hsdk_pll_cfg)
                              (h : list event) :
  valid_fields cfg ->
  latched hw (ctrl_addr clk) ->
  (ctrl_idiv (hsdk_pll_cfg_val cfg) = idiv cfg + 1 /\
   ctrl_fbdiv (hsdk_pll_cfg_val cfg) = 2 * (fbdiv cfg + 1) /\
   ctrl_odiv (hsdk_pll_cfg_val cfg) = 2 ^ odiv cfg /\
   Z.shiftr (hsdk_pll_cfg_val cfg) CGU_PLL_CTRL_BAND_SHIFT = band cfg) /\
  fst ((hsdk_pll_set_cfg clk cfg ;;; hsdk_pll_get_rate dm hw clk) h)
  = Some (dividers_rate cfg mod 2 ^ BITS_PER_LONG dm) /\
  260416 <= dividers_rate cfg <= 8533333248 /\
  (dm = LP64 \/ dividers_rate cfg < 2 ^ 32 ->
   fst ((hsdk_pll_set_cfg clk cfg ;;; hsdk_pll_get_rate dm hw clk) h)
   = Some (dividers_rate cfg)).
Proof.
  intros Hv Hlatch. split; [apply cfg_val_fields; assumption |].
  assert (Hget : fst ((hsdk_pll_set_cfg clk cfg ;;;
                       hsdk_pll_get_rate dm hw clk) h)
                 = Some (ulong dm (dividers_rate cfg))).
  { unfold bind, hsdk_pll_set_cfg, hsdk_pll_write, emit.
    rewrite get_rate_reads_ctrl. cbn [fst].
    change (regs clk + CGU_PLL_CTRL) with (ctrl_addr clk).
    rewrite (Hlatch _ (hsdk_pll_cfg_val cfg)).
    - unfold u32. rewrite Z.mod_small by apply cfg_val_range.
      destruct (cfg_val_running cfg) as [Hpd Hby].
      rewrite ctrl_rate_running, cfg_val_quotient by assumption. reflexivity.
    - apply last_write_after. cbn [writes_at]. rewrite Z.eqb_refl.
      reflexivity. }
  split; [exact Hget |].
  split; [apply dividers_rate_range; assumption |].
  intros Hfit. rewrite Hget, ulong_dividers_rate by assumption. reflexivity.
Qed.

Lemma set_cfg_then_get_rate_witness :
  fst ((hsdk_pll_set_cfg hsdk_core_clk (mk_cfg 1000000000 1 29 0 0) ;;;
        hsdk_pll_get_rate ILP32 (pll_device hsdk_core_clk 1) hsdk_core_clk)
         []) = Some 999999990.
Proof.
  assert (Hv : valid_fields (mk_cfg 1000000000 1 29 0 0))
    by (unfold valid_fields; cbn; lia).
  destruct (set_cfg_then_get_rate ILP32 (pll_device hsdk_core_clk 1)
              hsdk_core_clk (mk_cfg 1000000000 1 29 0 0) [] Hv
              (pll_device_latched hsdk_core_clk 1)) as [_ [_ [_ Hget]]].
  apply Hget. right. reflexivity.
Defined.

(** X2: whatever the entry holds, the word built by [hsdk_pll_set_cfg] fits
    32 bits and has the powerdown and bypass bits clear (every field is
    shifted by at least 2).  Decoding it therefore takes neither the
    powerdown nor the bypass branch: the result is the quotient of the
    dividers the word decodes to, converted to [unsigned long], and it is
    never 0. *)
Theorem cfg_val_keeps_pll_running (dm : data_model) (cfg : hsdk_pll_cfg) :
  0 <= hsdk_pll_cfg_val cfg < 2 ^ 32 /\
  Z.testbit (hsdk_pll_cfg_val cfg) 0 = false /\
  Z.testbit (hsdk_pll_cfg_val cfg) 1 = false /\
  exists r, hsdk_pll_ctrl_rate dm (hsdk_pll_cfg_val cfg) = Some r /\
            r <> 0 /\
            r = ulong dm (ctrl_quotient (hsdk_pll_cfg_val cfg)).
Proof.
  split; [apply cfg_val_range |].
  split; [rewrite cfg_val_testbit, !Z.testbit_neg_r by lia; reflexivity |].
  split; [rewrite cfg_val_testbit, !Z.testbit_neg_r by lia; reflexivity |].
  destruct (cfg_val_running cfg) as [Hpd Hby].
  eexists. split; [apply ctrl_rate_running; assumption |].
  split; [apply ulong_quotient_nonzero | reflexivity].
Qed.

(** X3: [hsdk_pll_get_rate] returns 0 exactly when the powerdown bit of the
    control register is set.  A running or bypassed PLL never reads as 0
    Hz, not even after the conversion of the 64-bit quotient to a 32-bit
    [unsigned long]. *)
Theorem get_rate_zero_iff_powerdown (dm : data_model) (hw : device)
                                    (clk : hsdk_pll_clk) (h : list event) :
  fst (hsdk_pll_get_rate dm hw clk h) = Some 0 <->
  Z.testbit (u32 (hw h (regs clk + CGU_PLL_CTRL))) 0 = true.
Proof.
  rewrite get_rate_reads_ctrl. cbn [fst].
  set (val := u32 (hw h (regs clk + CGU_PLL_CTRL))).
  unfold hsdk_pll_ctrl_rate at 1.
  unfold CGU_PLL_CTRL_PD. rewrite land_BIT, negb_involutive by lia.
  destruct (Z.testbit val 0) eqn:Hpd; [split; reflexivity |].
  destruct (Z.eqb_spec (Z.land val CGU_PLL_CTRL_BYPASS) 0) as [Hby | Hby];
    cbn [negb].
  - assert (Hp : Z.land val CGU_PLL_CTRL_PD = 0).
    { apply Z.eqb_eq. unfold CGU_PLL_CTRL_PD. rewrite land_BIT by lia.
      rewrite Hpd. reflexivity. }
    pose proof (ctrl_rate_running dm val Hp Hby) as Hr.
    unfold hsdk_pll_ctrl_rate in Hr. rewrite Hp, Hby in Hr. cbn [Z.eqb negb] in Hr.
    rewrite Hr. split; [| discriminate].
    intros H0. injection H0 as H0. apply ulong_quotient_nonzero in H0. destruct H0.
  - split; [| discriminate]. intros H0. exfalso. destruct dm; discriminate H0.
Qed.

Lemma get_rate_zero_iff_powerdown_witness :
  fst (hsdk_pll_get_rate ILP32 (reads_as 0x3619) hsdk_core_clk []) = Some 0.
Proof.
  apply (get_rate_zero_iff_powerdown ILP32 (reads_as 0x3619) hsdk_core_clk []).
  reflexivity.
Defined.

(** X4: for a control word with powerdown and bypass clear, the quotient
    33,333,333 * feedback / (input * output) lies between 260,416 Hz and
    8,533,333,248 Hz; no intermediate step wraps; with 64-bit longs
    [hsdk_pll_get_rate] returns it exactly, with 32-bit longs it returns it
    modulo 2 ^ 32, hence exactly whenever it is below 2 ^ 32. *)
Theorem get_rate_arithmetic (val : Z) :
  Z.land val CGU_PLL_CTRL_PD = 0 ->
  Z.land val CGU_PLL_CTRL_BYPASS = 0 ->
  260416 <= ctrl_quotient val <= 8533333248 /\
  hsdk_pll_ctrl_rate LP64 val = Some (ctrl_quotient val) /\
  hsdk_pll_ctrl_rate ILP32 val = Some (ctrl_quotient val mod 2 ^ 32) /\
  (ctrl_quotient val < 2 ^ 32 ->
   hsdk_pll_ctrl_rate ILP32 val = Some (ctrl_quotient val)).
Proof.
  intros Hpd Hby. destruct (ctrl_quotient_range val) as [Hr _].
  split; [assumption |].
  rewrite !ctrl_rate_running by assumption. unfold ulong. cbn [BITS_PER_LONG].
  split; [| split].
  - rewrite Z.mod_small; [reflexivity |].
    change (2 ^ 64) with 18446744073709551616. lia.
  - reflexivity.
  - intros Hlt. rewrite Z.mod_small by lia. reflexivity.
Qed.

Lemma get_rate_arithmetic_witness :
  hsdk_pll_ctrl_rate ILP32 0x3618 = Some 233333331.
Proof.
  destruct (get_rate_arithmetic 0x3618 eq_refl eq_refl) as [_ [_ [_ Hexact]]].
  apply Hexact. reflexivity.
Defined.

(** ** More on the matcher *)

(** The earliest nearest rate is at least as near as every entry. *)
Lemma nearest_first_minimal (rate : Z) (es : list hsdk_pll_cfg) (r : Z) :
  nearest_first rate es r ->
  forall c, In c es -> Z.abs (rate - r) <= Z.abs (rate - Cfg.rate c).
Proof.
  intros [l1 [cb [l2 [-> [Hcb [Hl1 Hl2]]]]]] c Hin.
  apply in_app_or in Hin. destruct Hin as [Hin | [<- | Hin]].
  - specialize (Hl1 c Hin). lia.
  - rewrite Hcb. lia.
  - apply Hl2. assumption.
Qed.

(** The rates of both shipped tables fit a [long] of either width, and
    neither table holds a zero rate before its end. *)
Lemma shipped_tables_fit_long (dm : data_model) (t : list hsdk_pll_cfg) :
  t = asdt_pll_cfg \/ t = hdmi_pll_cfg ->
  entries t = t /\ t <> [] /\
  Forall (fun c => fits_long dm (Cfg.rate c)) t.
Proof.
  intros [-> | ->]; (split; [reflexivity |]); (split; [discriminate |]);
    unfold fits_long, asdt_pll_cfg, hdmi_pll_cfg;
    repeat (apply Forall_cons;
            [destruct dm; vm_compute;
             (split; [intros H; discriminate H | reflexivity]) |]);
    apply Forall_nil.
Qed.

(** X5: on the three shipped descriptors, with either width of long, every
    request below 2 ^ 31 Hz is matched to the table entry nearest to it,
    the earliest one when two are equally near. *)
Theorem round_rate_nearest_on_shipped_tables (dm : data_model)
                                             (clk : hsdk_pll_clk) (rate : Z) :
  pll_devdata clk = core_pll_devdata \/ pll_devdata clk = sdt_pll_devdata \/
  pll_devdata clk = hdmi_pll_devdata ->
  0 <= rate < 2 ^ 31 ->
  nearest_first rate (pll_cfg (pll_devdata clk))
                (hsdk_pll_round_rate dm clk rate).
Proof.
  intros Hdd Hrate.
  assert (Hfit : fits_long dm rate).
  { unfold fits_long. destruct dm; cbn [BITS_PER_LONG].
    - change (32 - 1) with 31. assumption.
    - change (2 ^ (64 - 1)) with 9223372036854775808.
      change (2 ^ 31) with 2147483648 in Hrate. lia. }
  assert (Ht : pll_cfg (pll_devdata clk) = asdt_pll_cfg \/
               pll_cfg (pll_devdata clk) = hdmi_pll_cfg).
  { destruct Hdd as [-> | [-> | ->]]; [left | left | right]; reflexivity. }
  destruct (shipped_tables_fit_long dm _ Ht) as [He [Hne Hf]].
  rewrite <- He at 1.
  apply round_rate_nearest_in_range; [assumption | |]; rewrite He; assumption.
Qed.

Lemma round_rate_nearest_on_shipped_tables_witness :
  nearest_first 250000000 asdt_pll_cfg 233000000.
Proof.
  apply (round_rate_nearest_on_shipped_tables ILP32 hsdk_core_clk 250000000).
  - left. reflexivity.
  - vm_compute. split; [intros H; discriminate H | reflexivity].
Defined.

(** X6: on a table whose rates fit a [long], requesting the rate of an
    entry returns that very rate, and [hsdk_pll_round_rate] is idempotent:
    rounding a rounded rate changes nothing. *)
Theorem round_rate_exact_hit (dm : data_model) (clk : hsdk_pll_clk) :
  Forall (fun c => fits_long dm (Cfg.rate c))
         (entries (pll_cfg (pll_devdata clk))) ->
  (forall c, In c (entries (pll_cfg (pll_devdata clk))) ->
             hsdk_pll_round_rate dm clk (Cfg.rate c) = Cfg.rate c) /\
  (forall rate, entries (pll_cfg (pll_devdata clk)) <> [] ->
                hsdk_pll_round_rate dm clk (hsdk_pll_round_rate dm clk rate)
                = hsdk_pll_round_rate dm clk rate).
Proof.
  intros Hall.
  assert (Hhit : forall c, In c (entries (pll_cfg (pll_devdata clk))) ->
                   hsdk_pll_round_rate dm clk (Cfg.rate c) = Cfg.rate c).
  { intros c Hin.
    assert (Hfit : fits_long dm (Cfg.rate c)).
    { rewrite Forall_forall in Hall. apply Hall. assumption. }
    assert (Hne : entries (pll_cfg (pll_devdata clk)) <> []).
    { intros E. rewrite E in Hin. destruct Hin. }
    pose proof (nearest_first_minimal _ _ _
                  (round_rate_nearest_in_range dm clk (Cfg.rate c) Hfit Hall Hne)
                  c Hin) as Hmin.
    lia. }
  split; [assumption |].
  intros rate Hne.
  destruct (round_rate_in_entries dm clk rate Hne) as [c [Hin <-]].
  apply Hhit. assumption.
Qed.

Lemma round_rate_exact_hit_witness :
  hsdk_pll_round_rate ILP32 hsdk_hdmi_clk 540000000 = 540000000.
Proof.
  destruct (shipped_tables_fit_long ILP32 hdmi_pll_cfg (or_intror eq_refl))
    as [_ [_ Hfit]].
  destruct (round_rate_exact_hit ILP32 hsdk_hdmi_clk Hfit) as [Hhit _].
  apply (Hhit (mk_cfg 540000000 0 19 1 0)). cbn. tauto.
Defined.

(** X7: on a table whose rates fit a [long], a request at or below the
    lowest rate of the table is matched to the lowest rate, and a request
    at or above the highest rate (and still fitting a [long]) is matched to
    the highest rate. *)
Theorem round_rate_clamps (dm : data_model) (clk : hsdk_pll_clk) (rate : Z) :
  fits_long dm rate ->
  Forall (fun c => fits_long dm (Cfg.rate c))
         (entries (pll_cfg (pll_devdata clk))) ->
  (forall lo, In lo (entries (pll_cfg (pll_devdata clk))) ->
     (forall c, In c (entries (pll_cfg (pll_devdata clk))) ->
                Cfg.rate lo <= Cfg.rate c) ->
     rate <= Cfg.rate lo ->
     hsdk_pll_round_rate dm clk rate = Cfg.rate lo) /\
  (forall hi, In hi (entries (pll_cfg (pll_devdata clk))) ->
     (forall c, In c (entries (pll_cfg (pll_devdata clk))) ->
                Cfg.rate c <= Cfg.rate hi) ->
     Cfg.rate hi <= rate ->
     hsdk_pll_round_rate dm clk rate = Cfg.rate hi).
Proof.
  intros Hrate Hall.
  assert (Hmin : forall b, In b (entries (pll_cfg (pll_devdata clk))) ->
            (exists c, In c (entries (pll_cfg (pll_devdata clk))) /\
                       Cfg.rate c = hsdk_pll_round_rate dm clk rate) /\
            Z.abs (rate - hsdk_pll_round_rate dm clk rate)
            <= Z.abs (rate - Cfg.rate b)).
  { intros b Hin.
    assert (Hne : entries (pll_cfg (pll_devdata clk)) <> []).
    { intros E. rewrite E in Hin. destruct Hin. }
    split; [apply round_rate_in_entries; assumption |].
    apply (nearest_first_minimal _ _ _
             (round_rate_nearest_in_range dm clk rate Hrate Hall Hne) b Hin). }
  split.
  - intros lo Hin Hlow Hle.
    destruct (Hmin lo Hin) as [[c [Hc Hr]] Habs].
    specialize (Hlow c Hc). lia.
  - intros hi Hin Hhigh Hle.
    destruct (Hmin hi Hin) as [[c [Hc Hr]] Habs].
    specialize (Hhigh c Hc). lia.
Qed.

Lemma round_rate_clamps_witness :
  hsdk_pll_round_rate ILP32 hsdk_hdmi_clk 1000000 = 297000000 /\
  hsdk_pll_round_rate ILP32 hsdk_hdmi_clk 2000000000 = 594000000.
Proof.
  destruct (shipped_tables_fit_long ILP32 hdmi_pll_cfg (or_intror eq_refl))
    as [_ [_ Hfit]].
  split.
  - assert (Hr : fits_long ILP32 1000000)
      by (vm_compute; split; [intros H; discriminate H | reflexivity]).
    destruct (round_rate_clamps ILP32 hsdk_hdmi_clk 1000000 Hr Hfit)
      as [Hlow _].
    apply (Hlow (mk_cfg 297000000 0 21 2 0)).
    + cbn. tauto.
    + intros c Hin. cbn in Hin.
      destruct Hin as [<- | [<- | [<- | []]]]; cbn; lia.
    + cbn. lia.
  - assert (Hr : fits_long ILP32 2000000000)
      by (vm_compute; split; [intros H; discriminate H | reflexivity]).
    destruct (round_rate_clamps ILP32 hsdk_hdmi_clk 2000000000 Hr Hfit)
      as [_ Hhigh].
    apply (Hhigh (mk_cfg 594000000 0 21 1 0)).
    + cbn. tauto.
    + intros c Hin. cbn in Hin.
      destruct Hin as [<- | [<- | [<- | []]]]; cbn; lia.
    + cbn. lia.
Defined.

(** ** More on rate setting *)

(** The control register is written exactly once, with the word of the
    matched entry. *)
Lemma set_rate_ctrl_write (dm : data_model) (hw : device) (clk : hsdk_pll_clk)
                          (rate : Z) (h : list event) :
  regs clk <> spec_regs clk ->
  entries (pll_cfg (pll_devdata clk)) <> [] ->
  exists cfg,
    In cfg (entries (pll_cfg (pll_devdata clk))) /\
    Cfg.rate cfg = hsdk_pll_round_rate dm clk rate /\
    writes_at (ctrl_addr clk) (snd (hsdk_pll_set_rate dm hw clk rate h))
    = [hsdk_pll_cfg_val cfg].
Proof.
  intros Hne Hes.
  destruct (set_rate_outcome dm hw clk rate h Hes)
    as [cfg [r [Hin [Hrate [_ Hout]]]]].
  exists cfg. split; [assumption | split; [assumption |]].
  destruct Hout; stages; observe Hne; reflexivity.
Qed.

Lemma set_rate_loop_ignores_spec_regs (dm : data_model) (hw : device)
                                      (r s1 s2 : Z) (dd : hsdk_pll_devdata)
                                      (best_rate : Z) :
  update_rate dd = comm_update_rate ->
  forall cfgs,
    set_rate_loop dm hw (mk_clk r s1 dd) cfgs best_rate
    = set_rate_loop dm hw (mk_clk r s2 dd) cfgs best_rate.
Proof.
  intros Hu. induction cfgs as [| c rest IH]; [reflexivity |].
  cbn [set_rate_loop].
  destruct (Cfg.rate c =? 0); [reflexivity |].
  destruct (Cfg.rate c =? best_rate); [| assumption].
  unfold call_update_rate. cbn [pll_devdata]. rewrite Hu. reflexivity.
Qed.

(** X8: on a table whose first entry is the terminator,
    [hsdk_pll_round_rate] returns [-EINVAL] as an [unsigned long], and
    [hsdk_pll_set_rate] returns the same without touching any register or
    waiting: its only event is the error report. *)
Theorem set_rate_on_empty_table (dm : data_model) (hw : device)
                                (clk : hsdk_pll_clk) (rate : Z)
                                (h : list event) :
  entries (pll_cfg (pll_devdata clk)) = [] ->
  hsdk_pll_round_rate dm clk rate = ulong dm (- EINVAL) /\
  hsdk_pll_set_rate dm hw clk rate h
  = (ulong dm (- EINVAL), [pr_err (ulong dm (- EINVAL))]).
Proof.
  intros Hes.
  assert (Hr : hsdk_pll_round_rate dm clk rate = ulong dm (- EINVAL)).
  { unfold hsdk_pll_round_rate.
    destruct (pll_cfg (pll_devdata clk)) as [| c rest]; [reflexivity |].
    cbn [entries] in Hes. destruct (Cfg.rate c =? 0); [reflexivity | discriminate]. }
  split; [assumption |].
  rewrite set_rate_empty, Hr by assumption. reflexivity.
Qed.

Lemma set_rate_on_empty_table_witness :
  hsdk_pll_set_rate ILP32 (reads_as 1)
    (mk_clk 0xF0000000 0 (mk_devdata [] comm_update_rate)) 250000000 []
  = (4294967274, [pr_err 4294967274]).
Proof.
  apply (set_rate_on_empty_table ILP32 (reads_as 1)
           (mk_clk 0xF0000000 0 (mk_devdata [] comm_update_rate))
           250000000 []).
  reflexivity.
Defined.

(** X9: on a non-empty table, whatever the hardware answers, one call of
    [hsdk_pll_set_rate] writes the control register exactly once, with the
    word of an entry whose rate is the matched rate; waits exactly once,
    for 100 microseconds; samples the status register once or twice;
    writes the interface divider at most once; and does nothing else: no
    other register is read or written and no error is reported. *)
Theorem set_rate_trace_shape (dm : data_model) (hw : device)
                             (clk : hsdk_pll_clk) (rate : Z) (h : list event) :
  regs clk <> spec_regs clk ->
  entries (pll_cfg (pll_devdata clk)) <> [] ->
  let em := snd (hsdk_pll_set_rate dm hw clk rate h) in
  (exists cfg,
     In cfg (entries (pll_cfg (pll_devdata clk))) /\
     Cfg.rate cfg = hsdk_pll_round_rate dm clk rate /\
     writes_at (ctrl_addr clk) em = [hsdk_pll_cfg_val cfg]) /\
  delays em = [HSDK_PLL_MAX_LOCK_TIME] /\
  (1 <= length (reads_at (status_addr clk) em) <= 2)%nat /\
  (length (writes_at (core_if_div_addr clk) em) <= 1)%nat /\
  Forall (own_access clk) em.
Proof.
  intros Hne Hes em.
  destruct (set_rate_outcome dm hw clk rate h Hes)
    as [cfg [r [Hin [Hrate [_ Hout]]]]].
  fold em in Hout.
  split; [exists cfg; split; [assumption | split; [assumption |]] |].
  - destruct Hout; stages; observe Hne; reflexivity.
  - destruct Hout; stages; observe Hne; cbn [delays length];
      (split; [reflexivity |]); (split; [lia |]); (split; [lia |]);
      repeat (apply Forall_cons; [cbn; auto |]); apply Forall_nil.
Qed.

Lemma set_rate_trace_shape_witness :
  delays (snd (hsdk_pll_set_rate ILP32 (reads_as 0) hsdk_core_clk
                                 900000000 [])) = [100] /\
  Forall (own_access hsdk_core_clk)
         (snd (hsdk_pll_set_rate ILP32 (reads_as 0) hsdk_core_clk
                                 900000000 [])).
Proof.
  destruct (set_rate_trace_shape ILP32 (reads_as 0) hsdk_core_clk 900000000 [])
    as [_ [Hd [_ [_ Hown]]]];
    [vm_compute; discriminate | discriminate |].
  split; assumption.
Defined.

(** X10: for every table, [hsdk_pll_set_rate] returns 0, [-ETIMEDOUT] or
    [-EINVAL] (as [unsigned long]) and nothing else.  It returns 0 exactly
    when it sampled the status register twice, the first sample with the
    lock bit set and the second with the error bit clear, and [-ETIMEDOUT]
    exactly when it sampled it once, with the lock bit clear. *)
Theorem set_rate_result (dm : data_model) (hw : device)
                        (clk : hsdk_pll_clk) (rate : Z) (h : list event) :
  let r := fst (hsdk_pll_set_rate dm hw clk rate h) in
  let samples := reads_at (status_addr clk)
                          (snd (hsdk_pll_set_rate dm hw clk rate h)) in
  (r = 0 \/ r = ulong dm (- ETIMEDOUT) \/ r = ulong dm (- EINVAL)) /\
  (r = 0 <->
   exists s1 s2, samples = [s1; s2] /\
                 Z.land s1 CGU_PLL_STATUS_LOCK <> 0 /\
                 Z.land s2 CGU_PLL_STATUS_ERR = 0) /\
  (r = ulong dm (- ETIMEDOUT) <->
   exists s1, samples = [s1] /\ Z.land s1 CGU_PLL_STATUS_LOCK = 0).
Proof.
  intros r samples.
  destruct (ulong_status_nonzero dm) as [Nt [Ne [Nte Z0]]].
  destruct (entries (pll_cfg (pll_devdata clk))) as [| e0 es] eqn:Hes.
  - subst r samples. rewrite set_rate_empty by assumption. cbn [fst snd reads_at].
    split; [right; right; reflexivity |]. split; split.
    + intros H0. contradiction.
    + intros [s1 [s2 [H _]]]. discriminate H.
    + intros H0. symmetry in H0. contradiction.
    + intros [s1 [H _]]. discriminate H.
  - destruct (set_rate_outcome dm hw clk rate h)
      as [cfg [r' [_ [_ [Hr Hout]]]]]; [rewrite Hes; discriminate |].
    fold r in Hr. subst samples.
    destruct Hout as [t1 Ht1 | t1 t2 Ht1 Ht2 | t1 t2 Ht1 Ht2];
      rewrite !reads_at_app.
    + assert (Hs : reads_at (status_addr clk) (pre_step clk (hsdk_pll_round_rate dm clk rate)) ++
                   reads_at (status_addr clk) (program clk cfg) ++
                   reads_at (status_addr clk) [ioread32 (status_addr clk) t1] = [t1]).
      { stages; cbn [reads_at app]; rewrite Z.eqb_refl; reflexivity. }
      rewrite Hs. rewrite Hr.
      split; [right; left; reflexivity |]. split; split.
      * intros H0. contradiction.
      * intros [s1 [s2 [H _]]]. discriminate H.
      * intros _. exists t1. split; [reflexivity | assumption].
      * intros _. reflexivity.
    + assert (Hs : reads_at (status_addr clk) (pre_step clk (hsdk_pll_round_rate dm clk rate)) ++
                   reads_at (status_addr clk) (program clk cfg) ++
                   reads_at (status_addr clk)
                     [ioread32 (status_addr clk) t1; ioread32 (status_addr clk) t2]
                   = [t1; t2]).
      { stages; cbn [reads_at app]; rewrite !Z.eqb_refl; reflexivity. }
      rewrite Hs. rewrite Hr.
      split; [right; right; reflexivity |]. split; split.
      * intros H0. contradiction.
      * intros [s1 [s2 [H [_ He]]]]. injection H as <- <-. contradiction.
      * intros H0. symmetry in H0. contradiction.
      * intros [s1 [H _]]. discriminate H.
    + assert (Hs : reads_at (status_addr clk) (pre_step clk (hsdk_pll_round_rate dm clk rate)) ++
                   reads_at (status_addr clk) (program clk cfg) ++
                   reads_at (status_addr clk)
                     [ioread32 (status_addr clk) t1; ioread32 (status_addr clk) t2] ++
                   reads_at (status_addr clk) (post_step clk (hsdk_pll_round_rate dm clk rate))
                   = [t1; t2]).
      { stages; cbn [reads_at app]; rewrite !Z.eqb_refl; reflexivity. }
      rewrite Hs. rewrite Hr, Z0.
      split; [left; reflexivity |]. split; split.
      * intros _. exists t1, t2. repeat split; assumption.
      * intros _. reflexivity.
      * intros H0. symmetry in H0. contradiction.
      * intros [s1 [H _]]. discriminate H.
Qed.

Lemma set_rate_result_witness :
  fst (hsdk_pll_set_rate ILP32 (pll_device hsdk_hdmi_clk 1) hsdk_hdmi_clk
                         594000000 []) = 0.
Proof.
  apply (set_rate_result ILP32 (pll_device hsdk_hdmi_clk 1) hsdk_hdmi_clk
                         594000000 []).
  exists 1, 1. split; [reflexivity |].
  split; [vm_compute; discriminate | reflexivity].
Defined.

(** X11: rate setting and rate query compose.  On a non-empty table whose
    codes fit their fields, with a control register that reads back what
    was written, [hsdk_pll_get_rate] after [hsdk_pll_set_rate] returns the
    quotient q = 33,333,333 * 2 * (fbdiv + 1) / ((idiv + 1) * 2 ^ odiv) of
    the matched entry converted to [unsigned long]: q itself with 64-bit
    longs, q modulo 2 ^ 32 with 32-bit longs, hence q itself whenever q is
    below 2 ^ 32.  The result is never 0, and it does not depend on
    whether the PLL locked: a failed call leaves the new configuration in
    place. *)
Theorem get_rate_after_set_rate (dm : data_model) (hw : device)
                                (clk : hsdk_pll_clk) (rate : Z)
                                (h : list event) :
  regs clk <> spec_regs clk ->
  latched hw (ctrl_addr clk) ->
  entries (pll_cfg (pll_devdata clk)) <> [] ->
  Forall valid_fields (entries (pll_cfg (pll_devdata clk))) ->
  exists cfg,
    In cfg (entries (pll_cfg (pll_devdata clk))) /\
    Cfg.rate cfg = hsdk_pll_round_rate dm clk rate /\
    fst (hsdk_pll_get_rate dm hw clk
           (h ++ snd (hsdk_pll_set_rate dm hw clk rate h)))
    = Some (dividers_rate cfg mod 2 ^ BITS_PER_LONG dm) /\
    dividers_rate cfg mod 2 ^ BITS_PER_LONG dm <> 0 /\
    (dm = LP64 \/ dividers_rate cfg < 2 ^ 32 ->
     fst (hsdk_pll_get_rate dm hw clk
            (h ++ snd (hsdk_pll_set_rate dm hw clk rate h)))
     = Some (dividers_rate cfg)).
Proof.
  intros Hne Hlatch Hes Hvalid.
  destruct (set_rate_ctrl_write dm hw clk rate h Hne Hes)
    as [cfg [Hin [Hrate Hw]]].
  assert (Hv : valid_fields cfg).
  { rewrite Forall_forall in Hvalid. apply Hvalid. assumption. }
  assert (Hget : fst (hsdk_pll_get_rate dm hw clk
                        (h ++ snd (hsdk_pll_set_rate dm hw clk rate h)))
                 = Some (ulong dm (dividers_rate cfg))).
  { rewrite <- (cfg_val_quotient cfg Hv).
    rewrite get_rate_reads_ctrl. cbn [fst].
    change (regs clk + CGU_PLL_CTRL) with (ctrl_addr clk).
    rewrite (Hlatch _ _ (last_write_after _ h _ _ Hw)).
    unfold u32. rewrite Z.mod_small by apply cfg_val_range.
    destruct (cfg_val_running cfg) as [Hpd Hby].
    apply ctrl_rate_running; assumption. }
  exists cfg. split; [assumption | split; [assumption |]].
  split; [exact Hget |]. split.
  - change (dividers_rate cfg mod 2 ^ BITS_PER_LONG dm)
      with (ulong dm (dividers_rate cfg)).
    rewrite <- (cfg_val_quotient cfg Hv). apply ulong_quotient_nonzero.
  - intros Hfit. rewrite Hget, ulong_dividers_rate by assumption. reflexivity.
Qed.

Lemma get_rate_after_set_rate_witness :
  exists cfg,
    In cfg (entries asdt_pll_cfg) /\
    Cfg.rate cfg = 800000000 /\
    fst (hsdk_pll_get_rate ILP32 (pll_device hsdk_sdt_clk 0) hsdk_sdt_clk
           ([] ++ snd (hsdk_pll_set_rate ILP32 (pll_device hsdk_sdt_clk 0)
                                         hsdk_sdt_clk 777000000 [])))
    = Some (dividers_rate cfg mod 2 ^ 32) /\
    dividers_rate cfg mod 2 ^ 32 <> 0 /\
    (ILP32 = LP64 \/ dividers_rate cfg < 2 ^ 32 ->
     fst (hsdk_pll_get_rate ILP32 (pll_device hsdk_sdt_clk 0) hsdk_sdt_clk
            ([] ++ snd (hsdk_pll_set_rate ILP32 (pll_device hsdk_sdt_clk 0)
                                          hsdk_sdt_clk 777000000 [])))
     = Some (dividers_rate cfg)).
Proof.
  apply (get_rate_after_set_rate ILP32 (pll_device hsdk_sdt_clk 0)
           hsdk_sdt_clk 777000000 []).
  - vm_compute. discriminate.
  - apply pll_device_latched.
  - discriminate.
  - apply shipped_tables_valid_fields.
Defined.

(** X12: an instance whose [update_rate] is [hsdk_pll_comm_update_rate]
    behaves the same whatever its [spec_regs] is, null included: same
    result and same events for every request. *)
Theorem comm_variant_ignores_spec_regs (dm : data_model) (hw : device)
                                       (r s1 s2 : Z) (dd : hsdk_pll_devdata)
                                       (rate : Z) (h : list event) :
  update_rate dd = comm_update_rate ->
  hsdk_pll_set_rate dm hw (mk_clk r s1 dd) rate h
  = hsdk_pll_set_rate dm hw (mk_clk r s2 dd) rate h.
Proof.
  intros Hu. unfold hsdk_pll_set_rate.
  change (hsdk_pll_round_rate dm (mk_clk r s1 dd) rate)
    with (hsdk_pll_round_rate dm (mk_clk r s2 dd) rate).
  cbn [pll_devdata].
  rewrite (set_rate_loop_ignores_spec_regs dm hw r s1 s2 dd _ Hu). reflexivity.
Qed.

Lemma comm_variant_ignores_spec_regs_witness :
  hsdk_pll_set_rate ILP32 (reads_as 1)
    (mk_clk 0xF00000D0 0 hdmi_pll_devdata) 594000000 []
  = hsdk_pll_set_rate ILP32 (reads_as 1)
      (mk_clk 0xF00000D0 0xF00014B8 hdmi_pll_devdata) 594000000 [].
Proof.
  apply (comm_variant_ignores_spec_regs ILP32 (reads_as 1) 0xF00000D0 0
           0xF00014B8 hdmi_pll_devdata 594000000 []).
  reflexivity.
Defined.

(** X13: [hsdk_pll_clk_probe] returns 0 or [-ENOENT]; it returns [-ENOENT]
    exactly for the core-clock descriptor with a null second register
    base; the private data is always filled from register bases 0 and 1
    and the matched descriptor; and after a successful probe an instance
    that uses [hsdk_pll_core_update_rate] has a non-null [spec_regs]. *)
Theorem probe_outcome (dev : udevice) (pll_clk : hsdk_pll_clk) :
  let res := hsdk_pll_clk_probe dev pll_clk in
  (fst res = 0 \/ fst res = - ENOENT) /\
  (fst res = - ENOENT <->
   of_match dev = snps_hsdk_core_pll_clock /\ devfdt_get_addr_index dev 1 = 0) /\
  snd res = mk_clk (devfdt_get_addr_index dev 0) (devfdt_get_addr_index dev 1)
                   (hsdk_pll_clk_id (of_match dev)) /\
  (fst res = 0 ->
   update_rate (pll_devdata (snd res)) = core_update_rate ->
   spec_regs (snd res) <> 0).
Proof.
  unfold hsdk_pll_clk_probe, dev_get_driver_data.
  cbn [pll_devdata spec_regs regs].
  destruct (of_match dev); cbn [hsdk_pll_clk_id].
  - change (devdata_eqb sdt_pll_devdata core_pll_devdata) with false.
    cbn [andb fst snd pll_devdata spec_regs update_rate sdt_pll_devdata].
    split; [left; reflexivity |]. split; [| split; [reflexivity |]].
    + split; [discriminate | intros [H _]; discriminate H].
    + intros _ H. discriminate H.
  - change (devdata_eqb hdmi_pll_devdata core_pll_devdata) with false.
    cbn [andb fst snd pll_devdata spec_regs update_rate hdmi_pll_devdata].
    split; [left; reflexivity |]. split; [| split; [reflexivity |]].
    + split; [discriminate | intros [H _]; discriminate H].
    + intros _ H. discriminate H.
  - change (devdata_eqb core_pll_devdata core_pll_devdata) with true.
    cbn [andb].
    destruct (Z.eqb_spec (devfdt_get_addr_index dev 1) 0) as [E | E];
      cbn [fst snd spec_regs].
    + split; [right; reflexivity |]. split; [| split; [reflexivity |]].
      * split; [intros _; split; [reflexivity | assumption] | reflexivity].
      * intros H. discriminate H.
    + split; [left; reflexivity |]. split; [| split; [reflexivity |]].
      * split; [discriminate | intros [_ H]; contradiction].
      * intros _ _. assumption.
Qed.

Lemma probe_outcome_witness :
  spec_regs
    (snd (hsdk_pll_clk_probe
            (mk_udevice snps_hsdk_core_pll_clock
                        (fun i => if i =? 0 then 0xF0000000 else 0xF00014B8))
            (mk_clk 0 0 (mk_devdata [] comm_update_rate)))) <> 0.
Proof.
  apply (probe_outcome
           (mk_udevice snps_hsdk_core_pll_clock
                       (fun i => if i =? 0 then 0xF0000000 else 0xF00014B8))
           (mk_clk 0 0 (mk_devdata [] comm_update_rate)));
    reflexivity.
Defined.
